(** * Flash-Masta-Desktop: the USB device manager and the flash-chip controller

    A shallow embedding of [src/linkmasta/libusb_device_manager.cpp] (the
    registry of connected programmers and its reconciliation pass) and of
    the chip controller declared in [src/cartridge/ngp_chip.h], with the
    properties stated about them. *)

From stdpp Require Import base numbers option list sorting gmap strings pretty.

Open Scope N_scope.

(** ** Iterating a [std::map] in key order

    [std::map<unsigned int, T>] iterates in ascending key order.  The map
    itself is a [gmap N T]; [entries] is the sequence a range-for loop
    visits. *)

Module StdMap.

Definition key_le {A} (x y : N * A) : Prop := x.1 ≤ y.1.

#[global] Instance key_le_dec {A} : RelDecision (@key_le A).
Proof. intros x y. unfold key_le. apply _. Defined.

#[global] Instance key_le_trans {A} : Transitive (@key_le A).
Proof. intros x y z. unfold key_le. lia. Qed.

#[global] Instance key_le_total {A} : Total (@key_le A).
Proof. intros x y. unfold key_le. lia. Qed.

Definition entries {A} (m : gmap N A) : list (N * A) :=
  merge_sort key_le (map_to_list m).

End StdMap.

Import StdMap.

(** ** The device manager *)

Module DeviceManager.

(** A [libusb_device*]: only the identity of the pointer is used. *)
Abbreviation libusb_device := N (only parsing).

(** The part of [libusb_device_descriptor] the manager reads. *)
Record libusb_device_descriptor := {
  idVendor : N;
  idProduct : N
}.

(** What the USB bus shows during one pass: the device list returned by
    [libusb_get_device_list], the descriptor [libusb_get_device_descriptor]
    gives for a device, and the strings [usb::libusb_usb_device] reads from
    the opened device. *)
Record usb_bus := {
  device_list : list libusb_device;
  get_device_descriptor : libusb_device → libusb_device_descriptor;
  usb_manufacturer_string : libusb_device → string;
  usb_product_string : libusb_device → string;
  usb_serial_number : libusb_device → string
}.

(** The object [build_linkmasta_device] returns for a
    [usb::libusb_usb_device] wrapping the native handle.  Heap addresses
    are not modelled: the object is identified by the handle it wraps. *)
Inductive linkmasta_device := Linkmasta (usb_device : libusb_device).

#[global] Instance linkmasta_device_eq_dec : EqDecision linkmasta_device.
Proof. solve_decision. Defined.

Record connected_device := {
  id : N;
  vendor_id : N;
  product_id : N;
  manufacturer_string : string;
  product_string : string;
  serial_number : string;
  device : libusb_device;
  linkmasta : linkmasta_device;
  claimed : bool
}.

#[global] Instance connected_device_eq_dec : EqDecision connected_device.
Proof. solve_decision. Defined.

Definition set_claimed (b : bool) (e : connected_device) : connected_device :=
  {| id := id e; vendor_id := vendor_id e; product_id := product_id e;
     manufacturer_string := manufacturer_string e;
     product_string := product_string e; serial_number := serial_number e;
     device := device e; linkmasta := linkmasta e; claimed := b |}.

(** The members of [libusb_device_manager] the operations use.  The two
    mutexes are not members of the model: every operation below holds
    [m_connected_devices_mutex] from its first to its last access, so each
    is one atomic step on this state. *)
Record libusb_device_manager := {
  m_libusb_init : bool;
  m_connected_devices : gmap N connected_device;
  m_curr_id : N
}.

Definition with_devices (m : gmap N connected_device)
    (st : libusb_device_manager) : libusb_device_manager :=
  {| m_libusb_init := m_libusb_init st; m_connected_devices := m;
     m_curr_id := m_curr_id st |}.

(** *** Exceptions and the state monad of the member functions *)

Inductive exception := invalid_argument (what : string).

Definition M (A : Type) : Type :=
  libusb_device_manager → (exception + A) * libusb_device_manager.

#[global] Instance M_ret : MRet M := λ A a st, (inr a, st).

#[global] Instance M_bind : MBind M := λ A B k c st,
  match c st with
  | (inl ex, st') => (inl ex, st')
  | (inr a, st') => k a st'
  end.

Definition throw {A} (ex : exception) : M A := λ st, (inl ex, st).
Definition get_devices : M (gmap N connected_device) :=
  λ st, (inr (m_connected_devices st), st).
Definition put_devices (m : gmap N connected_device) : M unit :=
  λ st, (inr tt, with_devices m st).

Definition unknown_device (id : N) : exception :=
  invalid_argument ("Unknown connected device ID " +:+ pretty id).

(** [m_connected_devices.find(id)], throwing when it returns [end()]. *)
Definition find_or_throw (id : N) : M connected_device :=
  m ← get_devices;
  match m !! id with
  | None => throw (unknown_device id)
  | Some e => mret e
  end.

(** *** Queries *)

Definition get_connected_devices : M (list N) :=
  m ← get_devices; mret ((entries m).*1).

Definition is_connected (id : N) : M bool :=
  m ← get_devices; mret (bool_decide (is_Some (m !! id))).

Definition get_vendor_id (id : N) : M N :=
  e ← find_or_throw id; mret (vendor_id e).

Definition get_product_id (id : N) : M N :=
  e ← find_or_throw id; mret (product_id e).

Definition get_manufacturer_string (id : N) : M string :=
  e ← find_or_throw id; mret (manufacturer_string e).

Definition get_product_string (id : N) : M string :=
  e ← find_or_throw id; mret (product_string e).

Definition get_serial_number (id : N) : M string :=
  e ← find_or_throw id; mret (serial_number e).

Definition get_linkmasta_device (id : N) : M linkmasta_device :=
  e ← find_or_throw id; mret (linkmasta e).

Definition is_device_claimed (id : N) : M bool :=
  e ← find_or_throw id; mret (claimed e).

(** *** Claiming and releasing *)

Definition try_claim_device (id : N) : M bool :=
  e ← find_or_throw id;
  let r := claimed e in
  m ← get_devices;
  put_devices (<[id := set_claimed true e]> m);;
  mret (negb r).

Definition release_device (id : N) : M unit :=
  e ← find_or_throw id;
  m ← get_devices;
  put_devices (<[id := set_claimed false e]> m).

(** *** Reconciliation against the bus *)

Definition is_supported (vendor_id product_id : N) : bool :=
  ((vendor_id =? 0x20A0) && (product_id =? 0x4178))       (* NGP (linkmasta) *)
  || ((vendor_id =? 0x20A0) && (product_id =? 0x4256))    (* NGP (new flashmasta) *)
  || ((vendor_id =? 0x20A0) && (product_id =? 0x4252)).   (* WS *)

(** Modelled from the spec: [generate_id] is a member of the base class
    [device_manager], whose implementation is not among the sources.  The
    spec has the pass "allocate a fresh surrogate id", one that is "never
    reused while the device remains connected or claimed"; it is modelled
    as a counter [m_curr_id] that only grows. *)
Definition generate_id (curr_id : N) : N * N := (curr_id, curr_id + 1).

(** The locals of [refresh_device_list] together with the members it
    updates. *)
Record pass_state := {
  devices : gmap N connected_device;
  device_status : gmap N bool;
  curr_id : N
}.

(** "mark all devices as not found" *)
Definition mark_not_found (m : gmap N connected_device) : gmap N bool :=
  foldl (λ status entry, <[entry.1 := false]> status) ∅ (entries m).

(** "See if we already know about the device": the first entry, in key
    order, whose native handle is [dev]. *)
Fixpoint find_device (l : list (N * connected_device)) (dev : libusb_device)
    : option N :=
  match l with
  | [] => None
  | entry :: l' =>
      if decide (device entry.2 = dev) then Some entry.1
      else find_device l' dev
  end.

Definition new_connected_device (bus : usb_bus) (new_id : N)
    (dev : libusb_device) : connected_device :=
  let desc := get_device_descriptor bus dev in
  {| id := new_id;
     vendor_id := idVendor desc;
     product_id := idProduct desc;
     manufacturer_string := usb_manufacturer_string bus dev;
     product_string := usb_product_string bus dev;
     serial_number := usb_serial_number bus dev;
     device := dev;
     linkmasta := Linkmasta dev;
     claimed := false |}.

(** The body of the loop over [device_list]. *)
Definition scan_device (bus : usb_bus) (s : pass_state) (dev : libusb_device)
    : pass_state :=
  let desc := get_device_descriptor bus dev in
  if negb (is_supported (idVendor desc) (idProduct desc)) then s
  else
    match find_device (entries (devices s)) dev with
    | Some k =>
        {| devices := devices s;
           device_status := <[k := true]> (device_status s);
           curr_id := curr_id s |}
    | None =>
        let '(new_id, next) := generate_id (curr_id s) in
        {| devices := <[new_id := new_connected_device bus new_id dev]> (devices s);
           device_status := device_status s;
           curr_id := next |}
    end.

Definition scan_bus (bus : usb_bus) (st : libusb_device_manager) : pass_state :=
  foldl (scan_device bus)
    {| devices := m_connected_devices st;
       device_status := mark_not_found (m_connected_devices st);
       curr_id := m_curr_id st |}
    (device_list bus).

(** The entry [std::map::operator[]] inserts for a missing key: a
    value-initialised [connected_device]. *)
Definition default_device : connected_device :=
  {| id := 0; vendor_id := 0; product_id := 0; manufacturer_string := "";
     product_string := ""; serial_number := ""; device := 0;
     linkmasta := Linkmasta 0; claimed := false |}.

(** [m[k]]: the entry and the map, which gains a default entry when the
    key was missing. *)
Definition subscript (m : gmap N connected_device) (k : N)
    : connected_device * gmap N connected_device :=
  match m !! k with
  | Some e => (e, m)
  | None => (default_device, <[k := default_device]> m)
  end.

(** The body of the loop "Remove devices that were not found, but only if
    they are not claimed".  Deleting the [linkmasta] object and dropping
    the libusb reference act on objects outside the registry. *)
Definition remove_if_gone (m : gmap N connected_device) (entry : N * bool)
    : gmap N connected_device :=
  if entry.2 then m
  else
    let '(e, m') := subscript m entry.1 in
    if claimed e then m' else delete entry.1 m'.

Definition remove_gone (s : pass_state) : gmap N connected_device :=
  foldl remove_if_gone (devices s) (entries (device_status s)).

Definition refresh_device_list (bus : usb_bus) (st : libusb_device_manager)
    : libusb_device_manager :=
  if negb (m_libusb_init st) then st
  else
    let s := scan_bus bus st in
    {| m_libusb_init := m_libusb_init st;
       m_connected_devices := remove_gone s;
       m_curr_id := curr_id s |}.

(** The state the constructor leaves: libusb initialised, no device. *)
Definition initial : libusb_device_manager :=
  {| m_libusb_init := true; m_connected_devices := ∅; m_curr_id := 0 |}.

(** *** Vocabulary of the properties *)

Implicit Types (m : gmap N connected_device) (k : N) (e : connected_device)
  (dev : libusb_device) (st : libusb_device_manager) (bus : usb_bus).

(** [k] is the entry the matching loop stops at for [dev]: the entry with
    the least id whose native handle is [dev]. *)
Definition first_match m dev k : Prop :=
  ∃ e, m !! k = Some e ∧ device e = dev ∧
       ∀ k' e', m !! k' = Some e' → device e' = dev → k ≤ k'.

(** The handle lookup of the registry, as the pass performs it. *)
Definition known m dev : option N := find_device (entries m) dev.

(** What the removal loop leaves of an entry it visits unseen. *)
Definition keep_claimed (o : option connected_device) : option connected_device :=
  match o with
  | Some e => if claimed e then Some e else None
  | None => None
  end.

Definition supported_on bus dev : Prop :=
  is_supported (idVendor (get_device_descriptor bus dev))
               (idProduct (get_device_descriptor bus dev)) = true.

(** Every id in the registry was handed out by [generate_id] before. *)
Definition ids_fresh st : Prop :=
  ∀ k, is_Some (m_connected_devices st !! k) → k < m_curr_id st.

(** What holds after the scan has visited the devices [visited], started
    from the registry [m0] and the counter [c0]. *)
Record scan_inv bus m0 (c0 : N) (visited : list N) (s : pass_state) : Prop := {
  inv_old : ∀ k, k < c0 → devices s !! k = m0 !! k;
  inv_curr : c0 ≤ curr_id s;
  inv_new : ∀ k e, c0 ≤ k → devices s !! k = Some e →
    k < curr_id s ∧ e = new_connected_device bus k (device e) ∧
    device e ∈ visited ∧ supported_on bus (device e) ∧
    known m0 (device e) = None ∧ known (devices s) (device e) = Some k;
  inv_known_old : ∀ dev k, known m0 dev = Some k → known (devices s) dev = Some k;
  inv_known_back : ∀ dev k,
    known (devices s) dev = Some k → k < c0 → known m0 dev = Some k;
  inv_status_old : ∀ k, is_Some (m0 !! k) →
    ∃ b, device_status s !! k = Some b ∧
         (b = true ↔ ∃ dev, dev ∈ visited ∧ supported_on bus dev ∧
                            known m0 dev = Some k);
  inv_status_new : ∀ k, m0 !! k = None → device_status s !! k ≠ Some false;
  inv_found : ∀ dev, dev ∈ visited → supported_on bus dev →
    ∃ k, known (devices s) dev = Some k ∧ device_status s !! k ≠ Some false
}.

(** The entry [k] is marked in [device_status] during the pass: it is the
    match of a supported device the bus shows. *)
Definition seen_this_pass bus st k : Prop :=
  ∃ dev, dev ∈ device_list bus ∧ supported_on bus dev ∧
         known (m_connected_devices st) dev = Some k.

(** No two entries hold the same native handle. *)
Definition handles_distinct st : Prop :=
  ∀ k1 k2 e1 e2,
    m_connected_devices st !! k1 = Some e1 →
    m_connected_devices st !! k2 = Some e2 →
    device e1 = device e2 → k1 = k2.

(** Several passes in a row, one bus snapshot each. *)
Definition passes (buses : list usb_bus) st : libusb_device_manager :=
  foldl (λ st bus, refresh_device_list bus st) st buses.

(** The allow-list of (vendor id, product id) pairs, as the spec gives
    it. *)
Definition supported_devices : list (N * N) :=
  [(0x20A0, 0x4178); (0x20A0, 0x4256); (0x20A0, 0x4252)].

End DeviceManager.

(** ** The flash-chip controller *)

Module NgpChip.

(** [ngp_chip::data_t] and [word_t] are bytes, [address_t] is a 32-bit
    unsigned integer. *)
Abbreviation data_t := N (only parsing).
Abbreviation word_t := N (only parsing).
Abbreviation address_t := N (only parsing).

Definition address_wrap (a : N) : N := a mod 2 ^ 32.

Inductive chip_mode := READ | AUTOSELECT | BYPASS | ERASE.

#[global] Instance chip_mode_eq_dec : EqDecision chip_mode.
Proof. solve_decision. Defined.

(** The data members of [ngp_chip]; [m_linkmasta] points at the transport,
    whose state is kept next to the controller in [ChipM]. *)
Record ngp_chip := {
  m_mode : chip_mode;
  m_last_erased_addr : address_t;
  m_supports_bypass : bool;
  m_chip_num : N
}.

Definition with_mode (mode : chip_mode) (c : ngp_chip) : ngp_chip :=
  {| m_mode := mode; m_last_erased_addr := m_last_erased_addr c;
     m_supports_bypass := m_supports_bypass c; m_chip_num := m_chip_num c |}.

Definition with_last_erased_addr (a : address_t) (c : ngp_chip) : ngp_chip :=
  {| m_mode := m_mode c; m_last_erased_addr := a;
     m_supports_bypass := m_supports_bypass c; m_chip_num := m_chip_num c |}.

(** Modelled from the spec: [linkmasta_device] is only forward-declared in
    the header.  The spec's transport contract is [read(address) -> byte]
    and [write(address, byte)] on one chip; a read may change the state of
    the hardware behind it. *)
Class Transport (H : Type) := {
  transport_read : address_t → H → word_t * H;
  transport_write : address_t → word_t → H → H
}.

(** Modelled from the spec: [task_controller] is only forward-declared in
    the header.  The spec's progress-sink contract is
    [report_progress(units_done, units_total)] and [is_cancelled() -> bool]. *)
Class ProgressSink (S : Type) := {
  report_progress : N → N → S → S;
  is_cancelled : S → bool
}.

(** Modelled from the spec: the command sequences are written in
    [ngp_chip.cpp], which is not among the sources.  The spec has each of
    them as "a fixed series of address/value pairs specific to the flash
    family", and the erase poll compare "a designated status bit". *)
Record command_set := {
  cmd_reset : list (address_t * word_t);
  cmd_program : list (address_t * word_t);
  cmd_bypass_program : list (address_t * word_t);
  cmd_erase_chip : list (address_t * word_t);
  cmd_erase_block : address_t → list (address_t * word_t);
  status_bit : word_t
}.

(** Member functions run on the controller and the hardware behind its
    transport. *)
Definition ChipM (H A : Type) : Type := ngp_chip * H → A * (ngp_chip * H).

#[global] Instance ChipM_ret {H} : MRet (ChipM H) := λ A a s, (a, s).

#[global] Instance ChipM_bind {H} : MBind (ChipM H) := λ A B k c s,
  let '(a, s') := c s in k a s'.

Section controller.
Context {H S : Type} `{!Transport H, !ProgressSink S}.
Context (cs : command_set).

Definition get_chip : ChipM H ngp_chip := λ s, (s.1, s).
Definition set_mode (mode : chip_mode) : ChipM H unit :=
  λ s, ((), (with_mode mode s.1, s.2)).
Definition set_last_erased_addr (a : address_t) : ChipM H unit :=
  λ s, ((), (with_last_erased_addr a s.1, s.2)).

(** Modelled from the spec: [ngp_chip::read] is implemented in
    [ngp_chip.cpp], which is not among the sources; it reads one word
    through the transport. *)
Definition read (address : address_t) : ChipM H word_t :=
  λ s, let '(w, h) := transport_read address s.2 in (w, (s.1, h)).

(** Modelled from the spec: [ngp_chip::write] is implemented in
    [ngp_chip.cpp], which is not among the sources; it writes one word
    through the transport. *)
Definition write (address : address_t) (data : word_t) : ChipM H unit :=
  λ s, ((), (s.1, transport_write address data s.2)).

(** Modelled from the spec: issuing a command sequence ([ngp_chip.cpp] is
    not among the sources), "a fixed series of address/value pairs"
    written in order. *)
Fixpoint issue (seq : list (address_t * word_t)) : ChipM H unit :=
  match seq with
  | [] => mret ()
  | (a, w) :: seq' => write a w;; issue seq'
  end.

(** Modelled from the spec: [ngp_chip::reset] ([ngp_chip.cpp] is not
    among the sources) "issues the reset command sequence; sets
    belief-state to READ". *)
Definition reset : ChipM H unit :=
  issue (cmd_reset cs);; set_mode READ.

(** Modelled from the spec: [ngp_chip::program_byte] ([ngp_chip.cpp] is
    not among the sources) "issues the byte-program command sequence,
    writes [data] at [address], and leaves belief-state at READ". *)
Definition program_byte (address : address_t) (data : data_t) : ChipM H unit :=
  issue (cmd_program cs);; write address data;; set_mode READ.

(** Modelled from the spec: [ngp_chip::erase_chip] ([ngp_chip.cpp] is
    not among the sources) issues "the full-chip ... erase command
    sequence" and sets "belief-state to ERASE". *)
Definition erase_chip : ChipM H unit :=
  issue (cmd_erase_chip cs);; set_mode ERASE.

(** Modelled from the spec: [ngp_chip::erase_block] ([ngp_chip.cpp] is
    not among the sources) issues the "single-sector erase command
    sequence" and sets "belief-state to ERASE"; [last_erased_address] is
    the "last block-erase target". *)
Definition erase_block (block_address : address_t) : ChipM H unit :=
  issue (cmd_erase_block cs block_address);;
  set_last_erased_addr block_address;;
  set_mode ERASE.

(** Modelled from the spec: [ngp_chip::current_mode] ([ngp_chip.cpp] is
    not among the sources) returns the belief-state. *)
Definition current_mode : ChipM H chip_mode :=
  c ← get_chip; mret (m_mode c).

(** Modelled from the spec: [ngp_chip::is_erasing] ([ngp_chip.cpp] is
    not among the sources) "merely returns the last belief-state without
    touching hardware". *)
Definition is_erasing : ChipM H bool :=
  c ← get_chip; mret (bool_decide (m_mode c = ERASE)).

(** Modelled from the spec: [ngp_chip::test_erasing] ([ngp_chip.cpp] is
    not among the sources) "performs the hardware completion-poll",
    "comparing two consecutive reads of a designated status bit at the
    erase target", "and updates belief-state to READ once the poll
    indicates completion".  It answers whether the chip is still
    erasing, as the header says of it. *)
Definition test_erasing : ChipM H bool :=
  c ← get_chip;
  w1 ← read (m_last_erased_addr c);
  w2 ← read (m_last_erased_addr c);
  if decide (N.land w1 (status_bit cs) = N.land w2 (status_bit cs))
  then set_mode READ;; mret false
  else mret true.

(** [controller != nullptr && controller->is_cancelled()] *)
Definition cancelled (controller : option S) : bool :=
  match controller with
  | Some sink => is_cancelled sink
  | None => false
  end.

(** Modelled from the spec: the loop of the bulk operations
    ([ngp_chip.cpp] is not among the sources).  Units are transferred one
    at a time; "after each unit ... if a ProgressSink is supplied it is
    notified of progress and polled for cancellation; if cancellation is
    signaled, the operation stops early and returns the count actually
    transferred".  Cancellation is "checked between units": the poll
    stands at the head of the loop, so a sink that is cancelled before the
    first unit yields the count 0. *)
Fixpoint transfer_units {A} (unit_op : N → A → ChipM H A) (todo : nat)
    (total offset : N) (acc : A) (controller : option S)
    : ChipM H (N * A * option S) :=
  match todo with
  | O => mret (offset, acc, controller)
  | Datatypes.S todo' =>
      if cancelled controller then mret (offset, acc, controller)
      else
        acc' ← unit_op offset acc;
        transfer_units unit_op todo' total (offset + 1) acc'
          (report_progress (offset + 1) total <$> controller)
  end.

(** Modelled from the spec: [ngp_chip::read_bytes] ([ngp_chip.cpp] is
    not among the sources) "reads [count] bytes via [read()], each at the
    appropriate address", and returns the count read; the bytes read and
    the sink are returned with it. *)
Definition read_bytes (address : address_t) (num_bytes : N)
    (controller : option S) : ChipM H (N * list data_t * option S) :=
  transfer_units
    (λ offset data,
       w ← read (address_wrap (address + offset)); mret (data ++ [w]))
    (N.to_nat num_bytes) num_bytes 0 [] controller.

(** Modelled from the spec: one unit of [ngp_chip::program_bytes]
    ([ngp_chip.cpp] is not among the sources), "driving [program_byte] per
    unit (or per bypass-mode fast path if bypass was unlocked first)"; the
    fast path is the "shorter per-byte program sequence" followed by the
    data write. *)
Definition program_unit (address : address_t) (data : data_t) : ChipM H unit :=
  c ← get_chip;
  if decide (m_mode c = BYPASS)
  then issue (cmd_bypass_program cs);; write address data
  else program_byte address data.

(** Modelled from the spec: [ngp_chip::program_bytes] ([ngp_chip.cpp] is
    not among the sources) has the "same contract" as [read_bytes] and
    returns the count written.  [data] holds at least [num_bytes] bytes. *)
Definition program_bytes (address : address_t) (data : list data_t)
    (num_bytes : N) (controller : option S)
    : ChipM H (N * unit * option S) :=
  transfer_units
    (λ offset _,
       program_unit (address_wrap (address + offset))
         (data !!! N.to_nat offset))
    (N.to_nat num_bytes) num_bytes 0 () controller.

(** The sink after [j] units have been reported to it. *)
Fixpoint sink_after (total : N) (sink : S) (j : nat) : S :=
  match j with
  | O => sink
  | Datatypes.S j' =>
      report_progress (N.of_nat j) total (sink_after total sink j')
  end.

(** The sink first signals cancellation when exactly [k] units have been
    transferred. *)
Definition cancels_after (total : N) (sink : S) (k : nat) : Prop :=
  (∀ j, (j < k)%nat → is_cancelled (sink_after total sink j) = false) ∧
  is_cancelled (sink_after total sink k) = true.

(** The sink does not signal cancellation before all [total] units have
    been transferred. *)
Definition never_cancels (total : N) (sink : S) : Prop :=
  ∀ j, (j < N.to_nat total)%nat →
       is_cancelled (sink_after total sink j) = false.

(** The two calls that inspect the belief-state, and their answers. *)
Inductive erase_query := QueryIsErasing | QueryCurrentMode.
Inductive query_answer := IsErasing (b : bool) | CurrentMode (mode : chip_mode).

Definition run_query (q : erase_query) : ChipM H query_answer :=
  match q with
  | QueryIsErasing => b ← is_erasing; mret (IsErasing b)
  | QueryCurrentMode => mode ← current_mode; mret (CurrentMode mode)
  end.

(** The answers of a series of queries and the state they leave. *)
Fixpoint run_queries (qs : list erase_query) : ChipM H (list query_answer) :=
  match qs with
  | [] => mret []
  | q :: qs' => a ← run_query q; l ← run_queries qs'; mret (a :: l)
  end.

(** The answer a query gives while the belief-state is ERASE. *)
Definition erasing_answer (q : erase_query) : query_answer :=
  match q with
  | QueryIsErasing => IsErasing true
  | QueryCurrentMode => CurrentMode ERASE
  end.

(** What the completion poll of [test_erasing] finds on the hardware. *)
Definition poll_complete (s : ngp_chip * H) : bool :=
  let '(w1, h1) := transport_read (m_last_erased_addr s.1) s.2 in
  let '(w2, h2) := transport_read (m_last_erased_addr s.1) h1 in
  bool_decide (N.land w1 (status_bit cs) = N.land w2 (status_bit cs)).

(** What the transport has been asked to do: the writes of a list of
    address/value pairs in order, and the reads of a list of addresses in
    order with the words they return. *)
Definition write_all (writes : list (address_t * word_t)) (h : H) : H :=
  foldl (λ h aw, transport_write aw.1 aw.2 h) h writes.

Fixpoint read_all (addresses : list address_t) (h : H) : list word_t * H :=
  match addresses with
  | [] => ([], h)
  | a :: addresses' =>
      let '(w, h1) := transport_read a h in
      let '(ws, h2) := read_all addresses' h1 in
      (w :: ws, h2)
  end.

(** The addresses of the units [first], [first + 1], ... ([count] of
    them) of a transfer that starts at [address]. *)
Definition unit_addresses (address : address_t) (first count : nat)
    : list address_t :=
  (λ i, address_wrap (address + N.of_nat i)) <$> seq first count.

(** The writes that program those units of [data]: for each unit the
    program command sequence (the short one in bypass mode) and the data
    write. *)
Definition unit_writes (bypass : bool) (address : address_t)
    (data : list data_t) (i : nat) : list (address_t * word_t) :=
  (if bypass then cmd_bypass_program cs else cmd_program cs)
    ++ [(address_wrap (address + N.of_nat i), data !!! i)].

Definition program_writes (bypass : bool) (address : address_t)
    (data : list data_t) (first count : nat) : list (address_t * word_t) :=
  concat (unit_writes bypass address data <$> seq first count).

(** The controller after [count] units have been programmed. *)
Definition programmed_chip (bypass : bool) (count : nat) (c : ngp_chip)
    : ngp_chip :=
  if bypass then c
  else match count with O => c | Datatypes.S _ => with_mode READ c end.

(** Exactly [count] units of a transfer, from [offset] on, with no sink. *)
Fixpoint run_units {A} (unit_op : N → A → ChipM H A) (count : nat)
    (offset : N) (acc : A) : ChipM H A :=
  match count with
  | O => mret acc
  | Datatypes.S count' =>
      acc' ← unit_op offset acc; run_units unit_op count' (offset + 1) acc'
  end.

(** [test_erasing] called [n] times in a row, with its answers. *)
Fixpoint poll_erase (n : nat) : ChipM H (list bool) :=
  match n with
  | O => mret []
  | Datatypes.S n' =>
      erasing ← test_erasing; rest ← poll_erase n'; mret (erasing :: rest)
  end.

End controller.

End NgpChip.

(** ** A simulated chip and a simulated progress sink

    Test doubles for the two collaborators of the controller. *)

Module SimChip.
Import NgpChip.

(** Modelled from the spec: the "simulated chip" of the testable
    properties; nothing of it is among the sources.  It keeps the cells
    that were programmed (a cell that never was reads as erased, all ones),
    recognises the byte-program command sequence, and "reject[s] attempts
    that would set" a bit that is 0, "surfacing a contract violation
    distinct from ordinary operation". *)
Record sim_chip := {
  sim_mem : gmap N N;
  sim_pending : list (N * N);
  sim_violation : bool
}.

Definition cell (s : sim_chip) (address : N) : N :=
  default 0xFF (sim_mem s !! address).

Definition with_pending (pending : list (N * N)) (s : sim_chip) : sim_chip :=
  {| sim_mem := sim_mem s; sim_pending := pending;
     sim_violation := sim_violation s |}.

Definition sim_read (address : N) (s : sim_chip) : N * sim_chip :=
  (cell s address, s).

(** Modelled from the spec: a write that follows the complete program
    sequence programs a cell, "flash hardware can only clear bits (1→0),
    never set them"; any other write is a command word, kept while it
    continues the program sequence. *)
Definition sim_write (cs : command_set) (address data : N) (s : sim_chip)
    : sim_chip :=
  if decide (sim_pending s = cmd_program cs) then
    let old := cell s address in
    if decide (N.land old data = data) then
      {| sim_mem := <[address := N.land old data]> (sim_mem s);
         sim_pending := [];
         sim_violation := sim_violation s |}
    else
      {| sim_mem := sim_mem s; sim_pending := []; sim_violation := true |}
  else
    let pending := sim_pending s ++ [(address, data)] in
    {| sim_mem := sim_mem s;
       sim_pending :=
         if decide (pending `prefix_of` cmd_program cs) then pending else [];
       sim_violation := sim_violation s |}.

Definition sim_transport (cs : command_set) : Transport sim_chip :=
  {| transport_read := sim_read; transport_write := sim_write cs |}.

(** Modelled from the spec: a "cancellation source that cancels after
    unit k"; nothing of it is among the sources.  It remembers the units
    reported so far and signals cancellation from [cancel_at] units on. *)
Record sim_sink := {
  cancel_at : N;
  units_done : N
}.

#[global] Instance sim_progress_sink : ProgressSink sim_sink :=
  {| report_progress := λ done _ sink,
       {| cancel_at := cancel_at sink; units_done := done |};
     is_cancelled := λ sink, bool_decide (cancel_at sink ≤ units_done sink) |}.

(** Modelled from the spec: the "simulated completion condition" of an
    erase; nothing of it is among the sources.  The chip is erasing the
    block at [busy_block]: a read there returns the status word, whose
    status bit toggles from read to read ("toggle/status-bit polling: ...
    repeatedly reading a status location until its value stabilizes")
    until [busy_reads] reads have been made; after that, and at every
    other address, a read returns erased data, all ones.  Writes are
    commands and are kept in [command_log]. *)
Record erasing_chip := {
  status_mask : N;
  busy_block : N;
  busy_reads : nat;
  toggle : bool;
  command_log : list (N * N)
}.

Definition erasing_read (address : N) (hw : erasing_chip) : N * erasing_chip :=
  if decide (address = busy_block hw ∧ busy_reads hw ≠ O) then
    (if toggle hw then status_mask hw else 0,
     {| status_mask := status_mask hw; busy_block := busy_block hw;
        busy_reads := pred (busy_reads hw); toggle := negb (toggle hw);
        command_log := command_log hw |})
  else (0xFF, hw).

Definition erasing_write (address data : N) (hw : erasing_chip) : erasing_chip :=
  {| status_mask := status_mask hw; busy_block := busy_block hw;
     busy_reads := busy_reads hw; toggle := toggle hw;
     command_log := command_log hw ++ [(address, data)] |}.

Definition with_busy_reads (r : nat) (hw : erasing_chip) : erasing_chip :=
  {| status_mask := status_mask hw; busy_block := busy_block hw;
     busy_reads := r; toggle := toggle hw; command_log := command_log hw |}.

#[global] Instance erasing_transport : Transport erasing_chip :=
  {| transport_read := erasing_read; transport_write := erasing_write |}.

End SimChip.

(** ** Example inputs *)

Module Examples.
Import DeviceManager.

(** A bus showing two programmers (handles 7 and 9) and a foreign device
    (handle 8). *)
Definition bus_a : usb_bus :=
  {| device_list := [7; 8; 9];
     get_device_descriptor := λ dev,
       if decide (dev = 8) then {| idVendor := 0x046D; idProduct := 0xC077 |}
       else if decide (dev = 9) then {| idVendor := 0x20A0; idProduct := 0x4252 |}
       else {| idVendor := 0x20A0; idProduct := 0x4178 |};
     usb_manufacturer_string := λ _, "7400 Circuits";
     usb_product_string := λ _, "Linkmasta";
     usb_serial_number := λ _, "0001" |}.

(** The same bus after everything was unplugged. *)
Definition bus_empty : usb_bus :=
  {| device_list := [];
     get_device_descriptor := get_device_descriptor bus_a;
     usb_manufacturer_string := usb_manufacturer_string bus_a;
     usb_product_string := usb_product_string bus_a;
     usb_serial_number := usb_serial_number bus_a |}.

Definition dev7 : connected_device := new_connected_device bus_a 0 7.

(** A manager that knows the programmer on handle 7 under id 0. *)
Definition st_one : libusb_device_manager :=
  {| m_libusb_init := true; m_connected_devices := {[ 0 := dev7 ]};
     m_curr_id := 1 |}.

Definition st_one_claimed : libusb_device_manager :=
  {| m_libusb_init := true;
     m_connected_devices := {[ 0 := set_claimed true dev7 ]};
     m_curr_id := 1 |}.

(** A bus with one programmer, vendor 0x20A0 and product 0x4178. *)
Definition bus_one : usb_bus :=
  {| device_list := [7];
     get_device_descriptor := get_device_descriptor bus_a;
     usb_manufacturer_string := usb_manufacturer_string bus_a;
     usb_product_string := usb_product_string bus_a;
     usb_serial_number := usb_serial_number bus_a |}.

(** Plugging the programmer in, then claiming twice, releasing and claiming
    again; the answers of the four calls after the list of ids. *)
Definition claim_scenario : M (list N * bool * bool * bool) :=
  ids ← get_connected_devices;
  first ← try_claim_device 0;
  second ← try_claim_device 0;
  release_device 0;;
  third ← try_claim_device 0;
  mret (ids, first, second, third).

(** The usual unlock-and-command sequences of a NOR flash chip, with the
    toggle bit as status bit. *)
Definition flash_commands : NgpChip.command_set :=
  {| NgpChip.cmd_reset := [(0, 0xF0)];
     NgpChip.cmd_program := [(0x5555, 0xAA); (0x2AAA, 0x55); (0x5555, 0xA0)];
     NgpChip.cmd_bypass_program := [(0, 0xA0)];
     NgpChip.cmd_erase_chip :=
       [(0x5555, 0xAA); (0x2AAA, 0x55); (0x5555, 0x80);
        (0x5555, 0xAA); (0x2AAA, 0x55); (0x5555, 0x10)];
     NgpChip.cmd_erase_block := λ block_address,
       [(0x5555, 0xAA); (0x2AAA, 0x55); (0x5555, 0x80);
        (0x5555, 0xAA); (0x2AAA, 0x55); (block_address, 0x30)];
     NgpChip.status_bit := 0x40 |}.

Definition chip0 : NgpChip.ngp_chip :=
  {| NgpChip.m_mode := NgpChip.READ; NgpChip.m_last_erased_addr := 0;
     NgpChip.m_supports_bypass := false; NgpChip.m_chip_num := 0 |}.

(** A simulated chip whose cell 0x10 holds 0xF0, all others erased. *)
Definition sim_f0 : SimChip.sim_chip :=
  {| SimChip.sim_mem := {[ 0x10 := 0xF0 ]}; SimChip.sim_pending := [];
     SimChip.sim_violation := false |}.

(** A sink that cancels once two units are done. *)
Definition cancel_after_two : SimChip.sim_sink :=
  {| SimChip.cancel_at := 2; SimChip.units_done := 0 |}.

(** A chip that is erasing the block at 0x8000 and toggles for four more
    reads there. *)
Definition erasing_8000 : SimChip.erasing_chip :=
  {| SimChip.status_mask := 0x40; SimChip.busy_block := 0x8000;
     SimChip.busy_reads := 4; SimChip.toggle := false;
     SimChip.command_log := [] |}.

End Examples.

(** ** More of the device manager, and sequences of its operations *)

Module DeviceManagerOps.
Import DeviceManager.

(** [try_get_connected_devices]: [mutex_held] tells whether [try_lock]
    finds [m_connected_devices_mutex] taken (a pass is running);
    [devices] is the caller's vector, returned with the answer. *)
Definition try_get_connected_devices (mutex_held : bool) (devices : list N)
    : M (bool * list N) :=
  if mutex_held then mret (false, devices)
  else m ← get_devices; mret (true, (entries m).*1).

(** A call that can change the manager. *)
Inductive manager_op :=
| OpRefresh (bus : usb_bus)
| OpTryClaim (id : N)
| OpRelease (id : N).

Definition run_op (st : libusb_device_manager) (op : manager_op)
    : libusb_device_manager :=
  match op with
  | OpRefresh bus => refresh_device_list bus st
  | OpTryClaim id => (try_claim_device id st).2
  | OpRelease id => (release_device id st).2
  end.

Definition run_ops (ops : list manager_op) (st : libusb_device_manager)
    : libusb_device_manager :=
  foldl run_op st ops.

(** What the [try_claim_device id] calls among [ops] answer, in order. *)
Fixpoint claim_results (id : N) (ops : list manager_op)
    (st : libusb_device_manager) : list (exception + bool) :=
  match ops with
  | [] => []
  | op :: ops' =>
      match op with
      | OpTryClaim id' =>
          if decide (id' = id)
          then (try_claim_device id st).1 :: claim_results id ops' (run_op st op)
          else claim_results id ops' (run_op st op)
      | _ => claim_results id ops' (run_op st op)
      end
  end.

(** What every entry of the registry satisfies after the constructor and
    any series of passes, claims and releases. *)
Record registry_wf (st : libusb_device_manager) : Prop := {
  wf_init : m_libusb_init st = true;
  wf_ids_fresh : ids_fresh st;
  wf_handles_distinct : handles_distinct st;
  wf_entry : ∀ k e, m_connected_devices st !! k = Some e →
    id e = k ∧ is_supported (vendor_id e) (product_id e) = true ∧
    linkmasta e = Linkmasta (device e)
}.

End DeviceManagerOps.

(** ** The callers in the main window *)

Module MainWindow.
Import DeviceManager DeviceManagerOps.

(** The conversion of an [int] device index to the [unsigned int] id the
    manager takes. *)
Definition to_unsigned (i : Z) : N := Z.to_N (i mod 2 ^ 32).

(** The cartridge object [buildCartridgeForDevice] allocates. *)
Inductive cartridge :=
| ngp_cartridge (linkmasta : linkmasta_device)
| ws_cartridge (linkmasta : linkmasta_device).

(** What can leave a function of the window by an exception. *)
Inductive thrown :=
| manager_exception (ex : exception)
| external_exception.

(** How a function of the window ends: it returns, it throws, it uses a
    pointer it never set, or it is still in a claim loop when the fuel of
    the model runs out. *)
Inductive outcome (A : Type) :=
| Returned (a : A)
| Threw (t : thrown)
| Undefined
| Spinning.
Arguments Returned {A} a.
Arguments Threw {A} t.
Arguments Undefined {A}.
Arguments Spinning {A}.

Definition Client (A : Type) : Type :=
  libusb_device_manager → outcome A * libusb_device_manager.

#[global] Instance Client_ret : MRet Client := λ A a st, (Returned a, st).

#[global] Instance Client_bind : MBind Client := λ A B k c st,
  match c st with
  | (Returned a, st') => k a st'
  | (Threw t, st') => (Threw t, st')
  | (Undefined, st') => (Undefined, st')
  | (Spinning, st') => (Spinning, st')
  end.

(** A call into the device manager. *)
Definition call {A} (c : M A) : Client A := λ st,
  match c st with
  | (inr a, st') => (Returned a, st')
  | (inl ex, st') => (Threw (manager_exception ex), st')
  end.

(** A call into code outside the manager (a cartridge, a task) that
    either returns or throws. *)
Definition external (returns : bool) : Client unit := λ st,
  if returns then (Returned (), st) else (Threw external_exception, st).

(** [while (!try_claim_device(id));] *)
Fixpoint claim_loop (fuel : nat) (id : N) : Client unit :=
  match fuel with
  | O => λ st, (Spinning, st)
  | S fuel' =>
      claimed ← call (try_claim_device id);
      if claimed : bool then mret () else claim_loop fuel' id
  end.

(** The [switch] on the product id; no case, no assignment to [cart]. *)
Definition cartridge_for (product_id : N) (linkmasta : linkmasta_device)
    : option cartridge :=
  if decide (product_id = 0x4256 ∨ product_id = 0x4178)
  then Some (ngp_cartridge linkmasta)
  else if decide (product_id = 0x4252) then Some (ws_cartridge linkmasta)
  else None.

(** What the other threads do to the manager between two calls of the
    window: the passes of the refresh thread and the claims and releases
    of the worker threads.  Each manager call locks
    [m_connected_devices_mutex] for itself only, so any number of them can
    run between two calls of the window. *)
Definition meanwhile (ops : list manager_op) : Client unit :=
  λ st, (Returned (), run_ops ops st).

(** [while (!try_claim_device(id));] among the other threads: [gaps]
    gives what they do before each call of the loop, and the loop is
    still running when [gaps] is used up.  With nothing in the gaps it is
    [claim_loop]. *)
Fixpoint claim_loop_among (gaps : list (list manager_op)) (id : N)
    : Client unit :=
  match gaps with
  | [] => λ st, (Spinning, st)
  | ops :: gaps' =>
      meanwhile ops;;
      claimed ← call (try_claim_device id);
      if claimed : bool then mret () else claim_loop_among gaps' id
  end.

(** What surrounds one run of [buildCartridgeForDevice]: what the other
    threads do between [get_linkmasta_device] and [get_product_id],
    before each call of the claim loop, and between the claim and the
    release; and whether [cart->init()] returns or throws. *)
Record build_schedule := {
  before_product_id : list manager_op;
  before_claim : list (list manager_op);
  while_claimed : list manager_op;
  init_returns : bool
}.

(** [buildCartridgeForDevice].  [null] tells for which device objects the
    pointer [build_linkmasta_device] stored is the null pointer; that
    function is not among the sources. *)
Definition buildCartridgeForDevice (null : linkmasta_device → bool)
    (sch : build_schedule) (id : Z) : Client (option cartridge) :=
  linkmasta ← call (get_linkmasta_device (to_unsigned id));
  if null linkmasta then mret None
  else
    meanwhile (before_product_id sch);;
    product ← call (get_product_id (to_unsigned id));
    let cart := cartridge_for product linkmasta in
    claim_loop_among (before_claim sch) (to_unsigned id);;
    match cart with
    | None => λ st, (Undefined, st)
    | Some c =>
        meanwhile (while_claimed sch);;
        external (init_returns sch);;
        call (release_device (to_unsigned id));;
        mret (Some c)
    end.

(** How the [try] block of an action ends: the task returns, it throws a
    [std::runtime_error] (caught, shown in a message box), or it throws
    something else. *)
Inductive task_result := task_returns | task_runtime_error | task_other_exception.

Inductive action_result :=
| asked_to_select   (* "Please select a Flash Masta and a game slot." *)
| action_done (error_shown : bool).

(** What surrounds one run of an action slot: the schedule of its
    [buildCartridgeForDevice], what the other threads do before each call
    of the claim loop of [PRE_ACTION] and while the task runs, and how the
    task ends. *)
Record action_schedule := {
  build : build_schedule;
  before_action_claim : list (list manager_op);
  while_task_runs : list manager_op;
  task : task_result
}.

(** The six [triggerAction...] slots: [PRE_ACTION], the task, and
    [POST_ACTION].  [device_index] is [getSelectedDevice()]. *)
Definition triggerAction (null : linkmasta_device → bool)
    (sch : action_schedule) (device_index : Z) : Client action_result :=
  cart ← (if decide (device_index ≠ (-1)%Z)
          then buildCartridgeForDevice null (build sch) device_index
          else mret None);
  match cart with
  | None => mret asked_to_select
  | Some _ =>
      claim_loop_among (before_action_claim sch) (to_unsigned device_index);;
      meanwhile (while_task_runs sch);;
      error_shown ← match task sch with
                    | task_returns => mret false
                    | task_runtime_error => mret true
                    | task_other_exception => λ st, (Threw external_exception, st)
                    end;
      call (release_device (to_unsigned device_index));;
      mret (action_done error_shown)
  end.

(** The loop "Handle disconnected devices", on [m_device_ids]: [kept] are
    the elements before index [i], [rest] those from [i] on. *)
Fixpoint forget_removed (removed_devices : gset N) (kept rest : list N)
    : list N :=
  match rest with
  | [] => kept
  | device_id :: rest' =>
      if decide (device_id ∈ removed_devices)
      then forget_removed removed_devices kept rest'
      else forget_removed removed_devices (kept ++ [device_id]) rest'
  end.

(** The loop "Handle newly connected devices", on [m_device_ids]:
    [before_lookup device_id] is what the other threads do before the
    window asks for the object of [device_id].  [m_device_ids] is a member
    of the window, so it is returned as the loop left it also when an
    exception ends the loop; [linkmasta->system()] on a null pointer is
    undefined.  The lifetime of the device object, which a pass deletes
    with its entry, is not modelled. *)
Fixpoint remember_new (null : linkmasta_device → bool)
    (before_lookup : N → list manager_op) (new_devices : list N)
    (m_device_ids : list N) (st : libusb_device_manager)
    : outcome unit * list N * libusb_device_manager :=
  match new_devices with
  | [] => (Returned (), m_device_ids, st)
  | device_id :: new_devices' =>
      match get_linkmasta_device device_id
              (run_ops (before_lookup device_id) st) with
      | (inl ex, st') => (Threw (manager_exception ex), m_device_ids, st')
      | (inr linkmasta, st') =>
          if null linkmasta then (Undefined, m_device_ids, st')
          else remember_new null before_lookup new_devices'
                 (m_device_ids ++ [device_id]) st'
      end
  end.

(** [refreshDeviceList_timeout], as far as it works on [m_device_ids]; the
    list widget, the detail widgets and the selection are Qt objects and
    not modelled.  A [std::set] is iterated in ascending order. *)
Definition refreshDeviceList_timeout (null : linkmasta_device → bool)
    (mutex_held : bool) (before_lookup : N → list manager_op)
    (m_device_ids : list N) (st : libusb_device_manager)
    : outcome unit * list N * libusb_device_manager :=
  match try_get_connected_devices mutex_held [] st with
  | (inl ex, st') => (Threw (manager_exception ex), m_device_ids, st')
  | (inr (listed, connected_devices), st') =>
      if listed : bool then
        let known_devices : gset N := list_to_set m_device_ids in
        let current_devices : gset N := list_to_set connected_devices in
        let new_devices := current_devices ∖ known_devices in
        let removed_devices := known_devices ∖ current_devices in
        remember_new null before_lookup
          (merge_sort N.le (elements new_devices))
          (forget_removed removed_devices [] m_device_ids) st'
      else (Returned (), m_device_ids, st')
  end.

(** The manager with the entry [k] claimed. *)
Definition claimed_state (st : libusb_device_manager) (k : N)
    (e : connected_device) : libusb_device_manager :=
  with_devices (<[k := set_claimed true e]> (m_connected_devices st)) st.


(** The manager with the entry [k] released. *)
Definition released_state (st : libusb_device_manager) (k : N)
    (e : connected_device) : libusb_device_manager :=
  with_devices (<[k := set_claimed false e]> (m_connected_devices st)) st.

(** The id [k] was given to the device [e]: the entry [k] is still [e],
    claimed or not, or it has been removed, and no other device gets the
    id. *)
Definition tracks (k : N) (e : connected_device)
    (st : libusb_device_manager) : Prop :=
  ids_fresh st ∧ k < m_curr_id st ∧
  (m_connected_devices st !! k = None ∨
   ∃ b, m_connected_devices st !! k = Some (set_claimed b e)).

(** The cartridge for a registered device. *)
Definition cartridge_of (e : connected_device) : cartridge :=
  if decide (product_id e = 0x4252) then ws_cartridge (linkmasta e)
  else ngp_cartridge (linkmasta e).

(** The schedules with no other thread at work; [fuel] bounds the calls
    of each claim loop. *)
Definition quiet_build (fuel : nat) (init_returns : bool) : build_schedule :=
  {| before_product_id := []; before_claim := replicate fuel [];
     while_claimed := []; init_returns := init_returns |}.

Definition quiet_action (fuel : nat) (init_returns : bool)
    (task : task_result) : action_schedule :=
  {| build := quiet_build fuel init_returns;
     before_action_claim := replicate fuel [];
     while_task_runs := []; task := task |}.

(** The refresh thread sees the bus empty once, right before the first
    call of the claim loop. *)
Definition unplugged_before_claim : build_schedule :=
  {| before_product_id := [];
     before_claim := [[OpRefresh Examples.bus_empty]];
     while_claimed := []; init_returns := true |}.

(** A worker thread holds the device during the first call of the claim
    loop and releases it before the second; the refresh thread sees the
    bus empty while the window holds the device. *)
Definition contended_build : build_schedule :=
  {| before_product_id := [OpRefresh Examples.bus_a];
     before_claim := [[OpTryClaim 0]; [OpRelease 0]];
     while_claimed := [OpRefresh Examples.bus_empty];
     init_returns := true |}.

(** A schedule with other gaps before the calls of the claim loop. *)
Definition with_before_claim (gaps : list (list manager_op))
    (sch : build_schedule) : build_schedule :=
  {| before_product_id := before_product_id sch; before_claim := gaps;
     while_claimed := while_claimed sch; init_returns := init_returns sch |}.

(** The manager after a pass that saw both programmers of [bus_a]. *)
Definition st_two : libusb_device_manager :=
  refresh_device_list Examples.bus_a Examples.st_one.

(** The device is unplugged, and the refresh thread sees it, between the
    build of the cartridge and the claim of [PRE_ACTION]. *)
Definition unplugged_during_action : action_schedule :=
  {| build := quiet_build 1 true;
     before_action_claim := [[OpRefresh Examples.bus_empty]];
     while_task_runs := []; task := task_returns |}.

End MainWindow.

(** ** The flash task *)

Module NgpCartridgeFlashTask.

(** What [run_task] does to the input stream and shows to the user. *)
Inductive event :=
| new_ifstream
| close_stream
| delete_stream
| progress_label (text : string)
| restore_cartridge_game_data
| message_box (text : string).

#[global] Instance event_eq_dec : EqDecision event.
Proof. solve_decision. Defined.

(** How [m_cartridge->restore_cartridge_game_data] ends: it returns, it
    throws a [std::exception], or it throws something else. *)
Inductive restore_result :=
| restore_returns
| restore_throws_exception
| restore_throws_other.

#[global] Instance restore_result_eq_dec : EqDecision restore_result.
Proof. solve_decision. Defined.

Definition aborted_message (is_task_cancelled : bool) : list event :=
  if is_task_cancelled
  then [message_box "Operation aborted: cartridge may be in an unplayable state."]
  else [].

(** [NgpCartridgeFlashTask::run_task].  The inputs are what the
    collaborators answer: the file name of the dialog ([None] for a null
    [QString]), whether the stream opened, how the restore ends, and
    [is_task_cancelled()].  The result is the trace of events and whether
    an exception leaves the function. *)
Definition run_task (filename : option string) (is_open : bool)
    (restore : restore_result) (is_task_cancelled : bool) : list event * bool :=
  match filename with
  | None => ([], false)
  | Some _ =>
      if negb is_open then
        ([new_ifstream; delete_stream; message_box "Unable to open file"], false)
      else
        let begun := [new_ifstream; progress_label "Writing data to cartridge";
                      restore_cartridge_game_data] in
        match restore with
        | restore_throws_exception =>
            (begun ++ [close_stream; delete_stream]
               ++ aborted_message is_task_cancelled, true)
        | restore_throws_other => (begun, true)
        | restore_returns =>
            (begun ++ aborted_message is_task_cancelled
               ++ [close_stream; delete_stream], false)
        end
  end.

End NgpCartridgeFlashTask.

(** * Properties *)

(** ** Key-ordered iteration *)

Module StdMapFacts.

Section entries.
Context {A : Type}.
Implicit Types (m : gmap N A) (k : N) (a : A).

Lemma elem_of_entries m k a : (k, a) ∈ entries m ↔ m !! k = Some a.
Proof.
  unfold entries. rewrite merge_sort_Permutation.
  apply elem_of_map_to_list.
Qed.

Lemma entries_sorted m : StronglySorted key_le (entries m).
Proof. apply StronglySorted_merge_sort; apply _. Qed.

Lemma elem_of_entries_keys m k : k ∈ (entries m).*1 ↔ is_Some (m !! k).
Proof.
  rewrite list_elem_of_fmap. split.
  - intros [[k' a] [-> Hin]]. apply elem_of_entries in Hin. eauto.
  - intros [a Ha]. exists (k, a). split; [done|]. by apply elem_of_entries.
Qed.
End entries.

End StdMapFacts.

Import StdMapFacts.

(** ** The device manager *)

Module DeviceManagerFacts.
Import DeviceManager.

Implicit Types (m : gmap N connected_device) (k : N) (e : connected_device)
  (dev : libusb_device) (st : libusb_device_manager) (bus : usb_bus).

(** *** Matching a bus device to an entry *)

Lemma first_match_unique m dev k1 k2 :
  first_match m dev k1 → first_match m dev k2 → k1 = k2.
Proof.
  intros (e1 & H1 & D1 & L1) (e2 & H2 & D2 & L2).
  specialize (L1 _ _ H2 D2). specialize (L2 _ _ H1 D1). lia.
Qed.

Lemma find_device_sorted (l : list (N * connected_device)) dev k :
  StronglySorted key_le l →
  find_device l dev = Some k →
  ∃ e, (k, e) ∈ l ∧ device e = dev ∧
       ∀ k' e', (k', e') ∈ l → device e' = dev → k ≤ k'.
Proof.
  induction 1 as [|[k0 e0] l Hs IH Hall]; simpl; [done|].
  destruct (decide (device e0 = dev)) as [Heq|Hne].
  - intros [= <-]. exists e0. split_and!; [left|done|].
    intros k' e' [[= -> ->]|Hin]%elem_of_cons _; [lia|].
    rewrite Forall_forall in Hall. apply (Hall _ Hin).
  - intros Hf. destruct (IH Hf) as (e & Hin & Hd & Hmin).
    exists e. split_and!; [by right|done|].
    intros k' e' [[= -> ->]|Hin']%elem_of_cons Hd'; [done|]. eauto.
Qed.

Lemma find_device_None_iff (l : list (N * connected_device)) dev :
  find_device l dev = None ↔ ∀ k e, (k, e) ∈ l → device e ≠ dev.
Proof.
  induction l as [|[k0 e0] l IH]; simpl.
  - split; [|done]. intros _ k e Hin. by apply elem_of_nil in Hin.
  - destruct (decide (device e0 = dev)) as [Heq|Hne].
    + split; [done|]. intros H. destruct (H k0 e0); [left|done].
    + rewrite IH. split.
      * intros H k e [[= -> ->]|Hin]%elem_of_cons; eauto.
      * intros H k e Hin. apply (H k e). by right.
Qed.

Lemma known_None m dev :
  known m dev = None ↔ ∀ k e, m !! k = Some e → device e ≠ dev.
Proof.
  unfold known. rewrite find_device_None_iff.
  split; intros H k e Hk; apply (H k e); by apply elem_of_entries.
Qed.

Lemma known_Some m dev k : known m dev = Some k ↔ first_match m dev k.
Proof.
  split.
  - intros Hf. apply find_device_sorted in Hf; [|apply entries_sorted].
    destruct Hf as (e & Hin & Hd & Hmin). exists e.
    split_and!; [by apply elem_of_entries|done|].
    intros k' e' Hk'. apply Hmin. by apply elem_of_entries.
  - intros Hfm. destruct (known m dev) as [k2|] eqn:Hk.
    + f_equal. apply (first_match_unique m dev); [|done].
      apply find_device_sorted in Hk; [|apply entries_sorted].
      destruct Hk as (e & Hin & Hd & Hmin). exists e.
      split_and!; [by apply elem_of_entries|done|].
      intros k' e' Hk'. apply Hmin. by apply elem_of_entries.
    + destruct Hfm as (e & He & Hd & _).
      rewrite known_None in Hk. by destruct (Hk _ _ He).
Qed.

Lemma known_Some_lookup m dev k :
  known m dev = Some k → ∃ e, m !! k = Some e ∧ device e = dev.
Proof. rewrite known_Some. intros (e & ? & ? & _). eauto. Qed.

(** A registry that lost entries still matches [dev] to [k] when it kept
    [k]. *)
Lemma known_submap m m' dev k :
  m' ⊆ m → known m dev = Some k → is_Some (m' !! k) → known m' dev = Some k.
Proof.
  rewrite !known_Some. intros Hsub (e & He & Hd & Hmin) [e' He'].
  assert (e' = e) as ->.
  { eapply lookup_weaken in He'; [|done]. congruence. }
  exists e. split_and!; [done..|].
  intros k' e2 Hk'. apply Hmin. by eapply lookup_weaken.
Qed.

(** A new entry under a fresh id for a handle no entry has. *)
Lemma known_insert_new m dev c e :
  m !! c = None → known m (device e) = None →
  known (<[c := e]> m) dev =
    if decide (dev = device e) then Some c else known m dev.
Proof.
  intros Hc Hnone. rewrite known_None in Hnone.
  case_decide as Hd.
  - subst. apply known_Some. exists e.
    split_and!; [by rewrite lookup_insert_eq|done|].
    intros k' e'. rewrite lookup_insert. case_decide; [intros; lia|].
    intros Hk' Hd'. by destruct (Hnone _ _ Hk').
  - destruct (known m dev) as [k|] eqn:Hk.
    + apply known_Some. apply known_Some in Hk.
      destruct Hk as (e1 & He1 & Hd1 & Hmin). exists e1.
      assert (c ≠ k) by congruence.
      split_and!; [by rewrite lookup_insert_ne|done|].
      intros k' e'. rewrite lookup_insert. case_decide; [|by apply Hmin].
      intros [= <-]. congruence.
    + apply known_None. rewrite known_None in Hk. intros k e'.
      rewrite lookup_insert. case_decide; [|by apply Hk].
      intros [= <-]. congruence.
Qed.

(** *** The two loops over the status map *)

Lemma mark_not_found_lookup m k :
  mark_not_found m !! k = (λ _, false) <$> m !! k.
Proof.
  unfold mark_not_found.
  assert (∀ (l : list (N * connected_device)) (s : gmap N bool),
    foldl (λ status entry, <[entry.1 := false]> status) s l !! k =
      if decide (k ∈ l.*1) then Some false else s !! k) as Hfold.
  { induction l as [|[k0 e0] l IH]; intros s; cbn [foldl].
    - rewrite decide_False; [done|]. rewrite fmap_nil. apply not_elem_of_nil.
    - rewrite IH, lookup_insert, fmap_cons. cbn [fst].
      destruct (decide (k ∈ l.*1)) as [Hin|Hin],
        (decide (k ∈ k0 :: l.*1)) as [Hin2|Hin2],
        (decide (k0 = k)) as [->|Hne]; try done.
      all: try by (destruct Hin2; constructor).
      apply elem_of_cons in Hin2 as [?|?]; congruence. }
  rewrite Hfold, lookup_empty.
  case_decide as Hin; rewrite elem_of_entries_keys in Hin.
  - by destruct Hin as [e ->].
  - apply eq_None_not_Some in Hin. by rewrite Hin.
Qed.

Lemma remove_if_gone_lookup m (entry : N * bool) k :
  remove_if_gone m entry !! k =
    if decide (entry = (k, false)) then keep_claimed (m !! k) else m !! k.
Proof.
  destruct entry as [k0 b]. unfold remove_if_gone, subscript. simpl.
  destruct b.
  { case_decide; [congruence|done]. }
  destruct (m !! k0) as [e0|] eqn:Hk0.
  - destruct (claimed e0) eqn:Hc.
    + case_decide as H; [|done]. injection H as ->. by rewrite Hk0; simpl; rewrite Hc.
    + rewrite lookup_delete. case_decide as H1; case_decide as H2; try congruence.
      subst. by rewrite Hk0; simpl; rewrite Hc.
  - simpl. rewrite delete_insert_eq, lookup_delete.
    case_decide as H1; case_decide as H2; try congruence.
    subst. by rewrite Hk0.
Qed.

Lemma keep_claimed_idemp o : keep_claimed (keep_claimed o) = keep_claimed o.
Proof. destruct o as [e|]; [|done]. simpl. by destruct (claimed e) eqn:H; simpl; rewrite ?H. Qed.

Lemma remove_gone_lookup (s : pass_state) k :
  remove_gone s !! k =
    match device_status s !! k with
    | Some false => keep_claimed (devices s !! k)
    | _ => devices s !! k
    end.
Proof.
  unfold remove_gone.
  assert (∀ (l : list (N * bool)) m,
    foldl remove_if_gone m l !! k =
      if decide ((k, false) ∈ l) then keep_claimed (m !! k) else m !! k) as Hfold.
  { induction l as [|x l IH]; intros m; cbn [foldl].
    - rewrite decide_False; [done|]. apply not_elem_of_nil.
    - rewrite IH, remove_if_gone_lookup.
      destruct (decide ((k, false) ∈ l)) as [Hin|Hin],
        (decide ((k, false) ∈ x :: l)) as [Hin2|Hin2],
        (decide (x = (k, false))) as [->|Hne];
        rewrite ?keep_claimed_idemp; try done.
      all: try by (destruct Hin2; constructor).
      apply elem_of_cons in Hin2 as [?|?]; congruence. }
  rewrite Hfold. case_decide as Hin.
  - apply elem_of_entries in Hin. by rewrite Hin.
  - rewrite elem_of_entries in Hin. by destruct (device_status s !! k) as [[]|].
Qed.

Lemma remove_gone_subseteq (s : pass_state) : remove_gone s ⊆ devices s.
Proof.
  apply map_subseteq_spec. intros k e. rewrite remove_gone_lookup.
  destruct (device_status s !! k) as [[]|]; try done.
  destruct (devices s !! k) as [e'|]; simpl; [|done]. by destruct (claimed e').
Qed.

(** *** The scan of the bus *)

Section scan.
Context (bus : usb_bus) (m0 : gmap N connected_device) (c0 : N).
Hypothesis fresh0 : ∀ k, is_Some (m0 !! k) → k < c0.

Lemma scan_inv_init :
  scan_inv bus m0 c0 []
    {| devices := m0; device_status := mark_not_found m0; curr_id := c0 |}.
Proof.
  split; simpl; try done.
  - intros k e Hk He. assert (k < c0) by eauto. lia.
  - intros k [e He]. exists false. rewrite mark_not_found_lookup, He.
    split; [done|]. split; [done|]. intros (dev & Hin & _).
    by apply elem_of_nil in Hin.
  - intros k Hk. by rewrite mark_not_found_lookup, Hk.
  - intros dev Hin. by apply elem_of_nil in Hin.
Qed.

Lemma scan_inv_skip visited s dev :
  ¬ supported_on bus dev →
  scan_inv bus m0 c0 visited s → scan_inv bus m0 c0 (visited ++ [dev]) s.
Proof.
  intros Hns [I1 I2 I3 I4 I5 I6 I7 I8]. split; try done.
  - intros k e Hk He. destruct (I3 k e Hk He) as (?&?&?&?&?&?).
    split_and!; try done. apply elem_of_app. by left.
  - intros k Hk. destruct (I6 k Hk) as (b & Hb & Hiff). exists b.
    split; [done|]. rewrite Hiff. split.
    + intros (d & Hin & ?). exists d. split; [|done].
      apply elem_of_app. by left.
    + intros (d & [Hin|Hin]%elem_of_app & Hs & ?); [by exists d|].
      apply list_elem_of_singleton in Hin. by subst.
  - intros d [Hin|Hin]%elem_of_app Hs; [by apply I8|].
    apply list_elem_of_singleton in Hin. by subst.
Qed.

Lemma scan_inv_found visited s dev k :
  supported_on bus dev →
  known (devices s) dev = Some k →
  scan_inv bus m0 c0 visited s →
  scan_inv bus m0 c0 (visited ++ [dev])
    {| devices := devices s;
       device_status := <[k := true]> (device_status s);
       curr_id := curr_id s |}.
Proof.
  intros Hs Hk [I1 I2 I3 I4 I5 I6 I7 I8]. split; simpl; try done.
  - intros k' e Hk' He. destruct (I3 k' e Hk' He) as (?&?&?&?&?&?).
    split_and!; try done. apply elem_of_app. by left.
  - intros k' Hk'. assert (k' < c0) as Hlt by eauto.
    destruct (I6 k' Hk') as (b & Hb & Hiff).
    destruct (decide (k = k')) as [->|Hne].
    + exists true. rewrite lookup_insert_eq. split; [done|].
      split; [|done]. intros _. exists dev.
      split_and!; [apply elem_of_app; right; by left|done|by apply I5].
    + exists b. rewrite lookup_insert_ne by done. split; [done|].
      rewrite Hiff. split.
      * intros (d & Hin & ?). exists d. split; [|done].
        apply elem_of_app. by left.
      * intros (d & [Hin|Hin]%elem_of_app & Hsd & Hd); [by exists d|].
        apply list_elem_of_singleton in Hin. subst d.
        apply I4 in Hd. congruence.
  - intros k' Hk'. rewrite lookup_insert. case_decide; [done|]. by apply I7.
  - intros d [Hin|Hin]%elem_of_app Hsd.
    + destruct (I8 d Hin Hsd) as (k' & ? & ?). exists k'. split; [done|].
      rewrite lookup_insert. by case_decide.
    + apply list_elem_of_singleton in Hin. subst d. exists k.
      split; [done|]. by rewrite lookup_insert_eq.
Qed.

Lemma scan_inv_create visited s dev :
  supported_on bus dev →
  known (devices s) dev = None →
  scan_inv bus m0 c0 visited s →
  scan_inv bus m0 c0 (visited ++ [dev])
    {| devices :=
         <[curr_id s := new_connected_device bus (curr_id s) dev]> (devices s);
       device_status := device_status s;
       curr_id := curr_id s + 1 |}.
Proof.
  intros Hs Hk [I1 I2 I3 I4 I5 I6 I7 I8].
  assert (devices s !! curr_id s = None) as Hfree.
  { destruct (devices s !! curr_id s) as [e|] eqn:He; [|done].
    destruct (I3 _ _ I2 He) as [? _]. lia. }
  assert (known m0 dev = None) as Hk0.
  { destruct (known m0 dev) as [k|] eqn:Hk0; [|done].
    apply I4 in Hk0. congruence. }
  pose proof (λ d, known_insert_new (devices s) d (curr_id s)
    (new_connected_device bus (curr_id s) dev) Hfree Hk) as Hins.
  simpl in Hins.
  split; simpl.
  - intros k Hlt. rewrite lookup_insert_ne by lia. by apply I1.
  - lia.
  - intros k e Hge. rewrite lookup_insert. case_decide as Heq.
    + intros [= <-]. subst k. simpl. rewrite Hins, decide_True by done.
      split_and!; try done; [lia|]. apply elem_of_app. right. by left.
    + intros He. destruct (I3 k e Hge He) as (?&?&?&?&?&Hkn).
      rewrite Hins. split_and!; try done; [lia|by apply elem_of_app; left|].
      case_decide; [congruence|done].
  - intros d k Hd. rewrite Hins. case_decide; [congruence|]. by apply I4.
  - intros d k. rewrite Hins. case_decide; [intros [= <-]; lia|]. apply I5.
  - intros k Hk'. destruct (I6 k Hk') as (b & Hb & Hiff). exists b.
    split; [done|]. rewrite Hiff. split.
    + intros (d & Hin & ?). exists d. split; [|done].
      apply elem_of_app. by left.
    + intros (d & [Hin|Hin]%elem_of_app & Hsd & Hd); [by exists d|].
      apply list_elem_of_singleton in Hin. subst d. congruence.
  - done.
  - intros d [Hin|Hin]%elem_of_app Hsd.
    + destruct (I8 d Hin Hsd) as (k' & Hk' & ?). exists k'. split; [|done].
      rewrite Hins. case_decide; [congruence|done].
    + apply list_elem_of_singleton in Hin. subst d. exists (curr_id s).
      rewrite Hins, decide_True by done. split; [done|].
      apply I7. destruct (m0 !! curr_id s) eqn:Hm; [|done].
      assert (curr_id s < c0) by eauto. lia.
Qed.

Lemma scan_inv_step visited s dev :
  scan_inv bus m0 c0 visited s →
  scan_inv bus m0 c0 (visited ++ [dev]) (scan_device bus s dev).
Proof.
  intros Hinv. unfold scan_device.
  destruct (is_supported _ _) eqn:Hs; simpl.
  - fold (known (devices s) dev).
    destruct (known (devices s) dev) as [k|] eqn:Hk.
    + by apply scan_inv_found.
    + by apply scan_inv_create.
  - apply scan_inv_skip; [|done]. unfold supported_on. by rewrite Hs.
Qed.

Lemma scan_inv_foldl l :
  scan_inv bus m0 c0 l
    (foldl (scan_device bus)
       {| devices := m0; device_status := mark_not_found m0; curr_id := c0 |} l).
Proof.
  induction l as [|dev l IH] using rev_ind.
  - apply scan_inv_init.
  - rewrite foldl_snoc. by apply scan_inv_step.
Qed.
End scan.

Lemma scan_bus_inv bus st :
  ids_fresh st →
  scan_inv bus (m_connected_devices st) (m_curr_id st) (device_list bus)
    (scan_bus bus st).
Proof. intros Hf. by apply scan_inv_foldl. Qed.

(** *** One pass *)

Lemma refresh_device_list_eq bus st :
  m_libusb_init st = true →
  refresh_device_list bus st =
    {| m_libusb_init := true;
       m_connected_devices := remove_gone (scan_bus bus st);
       m_curr_id := curr_id (scan_bus bus st) |}.
Proof. intros Hi. unfold refresh_device_list. by rewrite Hi. Qed.

Lemma refresh_old_entry bus st k e :
  ids_fresh st → m_libusb_init st = true →
  m_connected_devices st !! k = Some e →
  ∃ b : bool, (b = true ↔ seen_this_pass bus st k) ∧
    m_connected_devices (refresh_device_list bus st) !! k =
      if b then Some e else keep_claimed (Some e).
Proof.
  intros Hf Hi He. rewrite refresh_device_list_eq by done. simpl.
  destruct (scan_bus_inv bus st Hf) as [I1 _ _ _ _ I6 _ _].
  destruct (I6 k) as (b & Hb & Hiff); [by eauto|].
  exists b. split; [done|].
  rewrite remove_gone_lookup, Hb, I1, He by eauto.
  by destruct b.
Qed.

Lemma ids_fresh_refresh bus st :
  ids_fresh st → ids_fresh (refresh_device_list bus st).
Proof.
  intros Hf. unfold refresh_device_list.
  destruct (m_libusb_init st); simpl; [|done].
  destruct (scan_bus_inv bus st Hf) as [I1 I2 I3 _ _ _ _ _].
  intros k [e He]; simpl in *.
  eapply lookup_weaken in He; [|apply remove_gone_subseteq].
  destruct (decide (k < m_curr_id st)) as [|Hge]; [lia|].
  apply I3 in He as [? _]; lia.
Qed.

Lemma ids_fresh_initial : ids_fresh initial.
Proof. intros k [e He]. simpl in He. by rewrite lookup_empty in He. Qed.

Lemma claimed_entry_stays bus st k e :
  ids_fresh st → m_connected_devices st !! k = Some e → claimed e = true →
  m_connected_devices (refresh_device_list bus st) !! k = Some e.
Proof.
  intros Hf He Hc. destruct (m_libusb_init st) eqn:Hi.
  - destruct (refresh_old_entry bus st k e Hf Hi He) as (b & _ & ->).
    destruct b; simpl; by rewrite ?Hc.
  - unfold refresh_device_list. by rewrite Hi.
Qed.

Lemma claimed_entry_stays_passes buses st k e :
  ids_fresh st → m_connected_devices st !! k = Some e → claimed e = true →
  m_connected_devices (passes buses st) !! k = Some e.
Proof.
  unfold passes. revert st.
  induction buses as [|bus buses IH]; intros st Hf He Hc; [done|].
  simpl. apply IH; [by apply ids_fresh_refresh| |done].
  by apply claimed_entry_stays.
Qed.

Lemma seen_this_pass_handle bus st k e :
  handles_distinct st → m_connected_devices st !! k = Some e →
  seen_this_pass bus st k ↔
    device e ∈ device_list bus ∧ supported_on bus (device e).
Proof.
  intros Hd He. split.
  - intros (dev & Hin & Hs & Hk).
    destruct (known_Some_lookup _ _ _ Hk) as (e' & He' & <-).
    assert (e' = e) as -> by congruence. done.
  - intros [Hin Hs]. exists (device e). split_and!; [done..|].
    apply known_Some. exists e. split_and!; [done..|].
    intros k' e' He' Hdev. by rewrite (Hd k k' e e' He He').
Qed.

Lemma handles_distinct_refresh bus st :
  ids_fresh st → handles_distinct st →
  handles_distinct (refresh_device_list bus st).
Proof.
  intros Hf Hd. unfold refresh_device_list.
  destruct (m_libusb_init st); simpl; [|done].
  destruct (scan_bus_inv bus st Hf) as [I1 _ I3 I4 _ _ _ _].
  set (s1 := scan_bus bus st) in *.
  assert (∀ k e, devices s1 !! k = Some e →
    (k < m_curr_id st ∧ m_connected_devices st !! k = Some e) ∨
    (m_curr_id st ≤ k ∧ known (m_connected_devices st) (device e) = None ∧
     known (devices s1) (device e) = Some k)) as Hcase.
  { intros k e He. destruct (decide (k < m_curr_id st)) as [Hlt|Hge].
    - left. by rewrite <- I1.
    - right. destruct (I3 k e) as (_ & _ & _ & _ & ? & ?); [lia|done|].
      split; [lia|done]. }
  intros k1 k2 e1 e2 H1 H2 Hdev; simpl in *.
  eapply lookup_weaken in H1; [|apply remove_gone_subseteq].
  eapply lookup_weaken in H2; [|apply remove_gone_subseteq].
  destruct (Hcase _ _ H1) as [[? Ho1]|(? & Hn1 & Hk1)],
    (Hcase _ _ H2) as [[? Ho2]|(? & Hn2 & Hk2)].
  - by apply (Hd k1 k2 e1 e2).
  - rewrite known_None in Hn2. destruct (Hn2 _ _ Ho1). done.
  - rewrite known_None in Hn1. destruct (Hn1 _ _ Ho2). done.
  - rewrite Hdev in Hk1. congruence.
Qed.

Lemma handles_distinct_initial : handles_distinct initial.
Proof. intros k1 k2 e1 e2 H1. simpl in H1. by rewrite lookup_empty in H1. Qed.

(** *** A second pass over the same bus *)

Lemma scan_all_known bus m0 (s0 : pass_state) l :
  devices s0 = m0 →
  (∀ dev, dev ∈ l → supported_on bus dev → known m0 dev ≠ None) →
  devices (foldl (scan_device bus) s0 l) = m0 ∧
  curr_id (foldl (scan_device bus) s0 l) = curr_id s0.
Proof.
  intros Hd. induction l as [|dev l IH] using rev_ind; intros Hall; [done|].
  rewrite foldl_snoc. destruct IH as [IH1 IH2].
  { intros d Hin. apply Hall, elem_of_app. by left. }
  set (s := foldl (scan_device bus) s0 l) in *.
  unfold scan_device. destruct (is_supported _ _) eqn:Hs; cbn [negb]; [|done].
  rewrite IH1. fold (known m0 dev).
  destruct (known m0 dev) as [k|] eqn:Hk; [done|].
  destruct (Hall dev); [apply elem_of_app; right; by left|done|done].
Qed.

Section second_pass.
Context (bus : usb_bus) (st : libusb_device_manager).
Hypothesis fresh : ids_fresh st.
Hypothesis init : m_libusb_init st = true.

Let s1 := scan_bus bus st.

Lemma visible_known_after dev :
  dev ∈ device_list bus → supported_on bus dev →
  ∃ k, known (remove_gone s1) dev = Some k.
Proof using fresh.
  intros Hin Hs.
  destruct (scan_bus_inv bus st fresh) as [_ _ _ _ _ _ _ I8].
  destruct (I8 dev Hin Hs) as (k & Hk & Hst). fold s1 in Hk, Hst.
  exists k. eapply known_submap; [apply remove_gone_subseteq|done|].
  destruct (known_Some_lookup _ _ _ Hk) as (e & He & _).
  rewrite remove_gone_lookup, He.
  by destruct (device_status s1 !! k) as [[]|].
Qed.

Lemma kept_unclaimed_seen k e :
  remove_gone s1 !! k = Some e → claimed e = false →
  ∃ dev, dev ∈ device_list bus ∧ supported_on bus dev ∧
         known (remove_gone s1) dev = Some k.
Proof using fresh.
  intros He Hc.
  destruct (scan_bus_inv bus st fresh) as [I1 _ I3 I4 _ I6 I7 _].
  fold s1 in I1, I3, I4, I6, I7.
  assert (devices s1 !! k = Some e) as He1.
  { eapply lookup_weaken; [done|apply remove_gone_subseteq]. }
  assert (device_status s1 !! k ≠ Some false) as Hst.
  { intros Hst. rewrite remove_gone_lookup, Hst, He1 in He. simpl in He.
    by rewrite Hc in He. }
  assert (∃ dev, dev ∈ device_list bus ∧ supported_on bus dev ∧
                 known (devices s1) dev = Some k) as (dev & Hin & Hs & Hk).
  { destruct (decide (k < m_curr_id st)) as [Hlt|Hge].
    - rewrite I1 in He1 by done.
      destruct (I6 k) as (b & Hb & Hiff); [by eauto|].
      destruct b; [|done]. destruct Hiff as [Hiff _].
      destruct Hiff as (dev & ? & ? & ?); [done|]. exists dev. eauto.
    - destruct (I3 k e) as (_ & _ & ? & ? & _ & ?); [lia|done|].
      exists (device e). eauto. }
  exists dev. split_and!; [done..|].
  eapply known_submap; [apply remove_gone_subseteq|done|by eauto].
Qed.

Lemma second_pass_fixed :
  refresh_device_list bus (refresh_device_list bus st) =
  refresh_device_list bus st.
Proof using fresh init.
  pose proof (ids_fresh_refresh bus st fresh) as Hf1.
  rewrite (refresh_device_list_eq bus st init) in Hf1 |- *. fold s1 in Hf1 |- *.
  set (st1 := {| m_libusb_init := true; m_connected_devices := remove_gone s1;
                 m_curr_id := curr_id s1 |}) in *.
  rewrite (refresh_device_list_eq bus st1) by done.
  destruct (scan_all_known bus (remove_gone s1)
    {| devices := remove_gone s1;
       device_status := mark_not_found (remove_gone s1);
       curr_id := curr_id s1 |} (device_list bus)) as [Hd Hc]; [done| |].
  { intros dev Hin Hs. destruct (visible_known_after dev Hin Hs) as [k ->]. done. }
  change (foldl _ _ _) with (scan_bus bus st1) in Hd, Hc. simpl in Hc.
  unfold st1 at 2. f_equal; [|done].
  apply map_eq. intros k. rewrite remove_gone_lookup, Hd.
  destruct (device_status (scan_bus bus st1) !! k) as [[]|] eqn:Hst; try done.
  destruct (remove_gone s1 !! k) as [e|] eqn:He; [simpl|done].
  destruct (claimed e) eqn:Hcl; [done|exfalso].
  destruct (scan_bus_inv bus st1 Hf1) as [_ _ _ _ _ I6 _ _].
  destruct (I6 k) as (b & Hb & Hiff); [by simpl; eauto|].
  assert (b = false) as -> by congruence.
  destruct (kept_unclaimed_seen k e He Hcl) as (dev & ? & ? & ?).
  assert (false = true); [|done]. apply Hiff. exists dev. eauto.
Qed.
End second_pass.

Lemma scan_status_false bus (s0 : pass_state) l k :
  device_status (foldl (scan_device bus) s0 l) !! k = Some false →
  device_status s0 !! k = Some false.
Proof.
  induction l as [|dev l IH] using rev_ind; [done|].
  rewrite foldl_snoc. set (s := foldl (scan_device bus) s0 l) in *.
  unfold scan_device. destruct (is_supported _ _); cbn [negb]; [|done].
  destruct (find_device _ _) as [k'|]; simpl; [|done].
  rewrite lookup_insert. by case_decide.
Qed.

(** *** Operations on an id *)

Lemma find_or_throw_Some st k e :
  m_connected_devices st !! k = Some e → find_or_throw k st = (inr e, st).
Proof. intros He. unfold find_or_throw, mbind, M_bind, get_devices. by rewrite He. Qed.

Lemma find_or_throw_None st k :
  m_connected_devices st !! k = None →
  find_or_throw k st = (inl (unknown_device k), st).
Proof. intros He. unfold find_or_throw, mbind, M_bind, get_devices. by rewrite He. Qed.

Lemma try_claim_device_Some st k e :
  m_connected_devices st !! k = Some e →
  try_claim_device k st =
    (inr (negb (claimed e)),
     with_devices (<[k := set_claimed true e]> (m_connected_devices st)) st).
Proof.
  intros He. unfold try_claim_device, mbind, M_bind.
  by rewrite (find_or_throw_Some st k e He).
Qed.

Lemma try_claim_device_None st k :
  m_connected_devices st !! k = None →
  try_claim_device k st = (inl (unknown_device k), st).
Proof.
  intros He. unfold try_claim_device, mbind, M_bind.
  by rewrite (find_or_throw_None st k He).
Qed.

Lemma release_device_Some st k e :
  m_connected_devices st !! k = Some e →
  release_device k st =
    (inr (),
     with_devices (<[k := set_claimed false e]> (m_connected_devices st)) st).
Proof.
  intros He. unfold release_device, mbind, M_bind.
  by rewrite (find_or_throw_Some st k e He).
Qed.

Lemma ids_fresh_with_devices st k e e' :
  ids_fresh st → m_connected_devices st !! k = Some e →
  ids_fresh (with_devices (<[k := e']> (m_connected_devices st)) st).
Proof.
  intros Hf He k' [e2 H2]. simpl in *. apply Hf.
  rewrite lookup_insert in H2. case_decide; subst; eauto.
Qed.

End DeviceManagerFacts.

(** ** The stated properties of the device manager *)

Module DeviceManagerSpec.
Import DeviceManager DeviceManagerFacts Examples.

Lemma ids_fresh_st_one : ids_fresh st_one.
Proof.
  intros k [e He]. simpl in He.
  apply lookup_singleton_Some in He as [<- _]. simpl. lia.
Defined.

Lemma ids_fresh_st_one_claimed : ids_fresh st_one_claimed.
Proof.
  intros k [e He]. simpl in He.
  apply lookup_singleton_Some in He as [<- _]. simpl. lia.
Defined.

Example claim_scenario_runs :
  (claim_scenario (refresh_device_list bus_one initial)).1 =
    inr ([0], true, false, true).
Proof. vm_compute. reflexivity. Qed.

(** C1. On a registered id, [try_claim_device] sets the claimed flag and
    returns true exactly when the flag was clear before: on an unclaimed
    entry it returns true, on a claimed entry false, the entry is claimed
    afterwards in both cases, and a second call right after the first
    returns false. *)
Theorem try_claim_device_test_and_set st k e :
  m_connected_devices st !! k = Some e →
  let st' := (try_claim_device k st).2 in
  (try_claim_device k st).1 = inr (negb (claimed e)) ∧
  (claimed e = false → (try_claim_device k st).1 = inr true) ∧
  (claimed e = true → (try_claim_device k st).1 = inr false) ∧
  m_connected_devices st' !! k = Some (set_claimed true e) ∧
  (is_device_claimed k st').1 = inr true ∧
  (∀ k', k' ≠ k → m_connected_devices st' !! k' = m_connected_devices st !! k') ∧
  (try_claim_device k st').1 = inr false ∧
  m_connected_devices (try_claim_device k st').2 !! k = Some (set_claimed true e).
Proof.
  intros He. rewrite (try_claim_device_Some st k e He). cbn [fst snd].
  set (st' := with_devices _ st).
  assert (m_connected_devices st' !! k = Some (set_claimed true e)) as He'.
  { unfold st'. simpl. by rewrite lookup_insert_eq. }
  split_and!; try done.
  - by intros ->.
  - by intros ->.
  - unfold is_device_claimed, mbind, M_bind.
    by rewrite (find_or_throw_Some st' k _ He').
  - intros k' Hne. unfold st'. simpl. by rewrite lookup_insert_ne.
  - by rewrite (try_claim_device_Some st' k _ He').
  - rewrite (try_claim_device_Some st' k _ He'). simpl.
    by rewrite lookup_insert_eq.
Qed.

Lemma try_claim_device_test_and_set_witness :
  m_connected_devices st_one !! 0 = Some dev7 ∧
  (try_claim_device 0 st_one).1 = inr true ∧
  (try_claim_device 0 (try_claim_device 0 st_one).2).1 = inr false.
Proof.
  split; [reflexivity|].
  pose proof (try_claim_device_test_and_set st_one 0 dev7 eq_refl) as H.
  split; [apply H; reflexivity|apply H].
Defined.

(** C9. On an id that is not registered, [try_claim_device] throws the
    unknown-device exception and changes nothing; so when it returns
    false, the id is registered and its entry was already claimed. *)
Theorem try_claim_device_unknown st k :
  (m_connected_devices st !! k = None →
     try_claim_device k st = (inl (unknown_device k), st)) ∧
  ((try_claim_device k st).1 = inr false →
     ∃ e, m_connected_devices st !! k = Some e ∧ claimed e = true).
Proof.
  split.
  - apply try_claim_device_None.
  - destruct (m_connected_devices st !! k) as [e|] eqn:He.
    + rewrite (try_claim_device_Some st k e He). simpl.
      intros [= Hc]. exists e. split; [done|]. by destruct (claimed e).
    + by rewrite (try_claim_device_None st k He).
Qed.

Lemma try_claim_device_unknown_witness :
  try_claim_device 3 initial =
    (inl (invalid_argument "Unknown connected device ID 3"), initial).
Proof.
  destruct (try_claim_device_unknown initial 3) as [H _]. by apply H.
Defined.

(** C5. For an id that is not in the registry, each accessor
    ([get_vendor_id], [get_product_id], [get_manufacturer_string],
    [get_product_string], [get_serial_number], [get_linkmasta_device],
    [is_device_claimed]) throws the unknown-device exception, and the
    manager is left as it was. *)
Theorem accessors_unknown_device st k :
  m_connected_devices st !! k = None →
  get_vendor_id k st = (inl (unknown_device k), st) ∧
  get_product_id k st = (inl (unknown_device k), st) ∧
  get_manufacturer_string k st = (inl (unknown_device k), st) ∧
  get_product_string k st = (inl (unknown_device k), st) ∧
  get_serial_number k st = (inl (unknown_device k), st) ∧
  get_linkmasta_device k st = (inl (unknown_device k), st) ∧
  is_device_claimed k st = (inl (unknown_device k), st).
Proof.
  intros He.
  unfold get_vendor_id, get_product_id, get_manufacturer_string,
    get_product_string, get_serial_number, get_linkmasta_device,
    is_device_claimed, mbind, M_bind.
  by rewrite (find_or_throw_None st k He).
Qed.

Lemma accessors_unknown_device_witness :
  m_connected_devices initial !! 3 = None ∧
  get_vendor_id 3 initial =
    (inl (invalid_argument "Unknown connected device ID 3"), initial) ∧
  is_device_claimed 3 initial =
    (inl (invalid_argument "Unknown connected device ID 3"), initial).
Proof.
  split; [reflexivity|].
  pose proof (accessors_unknown_device initial 3 eq_refl) as H.
  split; apply H.
Defined.

(** C2. A pass removes an entry exactly when the pass did not see the
    entry's device on the bus and the entry is unclaimed, and it leaves
    an entry it keeps as it was; a claimed entry is still there after any
    number of passes, whatever the bus shows; and once [release_device]
    has cleared the flag, a pass that does not see the device removes the
    entry.  An entry is seen when it is the match of a supported device of
    the bus, which is when the scan marks it true in [device_status];
    where no two entries hold the same handle, that is when its own handle
    is on the bus with a supported descriptor. *)
Theorem refresh_removes_unseen_unclaimed bus st k e :
  ids_fresh st → m_libusb_init st = true →
  m_connected_devices st !! k = Some e →
  (m_connected_devices (refresh_device_list bus st) !! k = None ↔
     ¬ seen_this_pass bus st k ∧ claimed e = false) ∧
  (m_connected_devices (refresh_device_list bus st) !! k = None ∨
   m_connected_devices (refresh_device_list bus st) !! k = Some e) ∧
  (claimed e = true →
     ∀ buses, m_connected_devices (passes buses st) !! k = Some e) ∧
  (release_device k st).1 = inr () ∧
  (∀ bus', ¬ seen_this_pass bus' (release_device k st).2 k →
     m_connected_devices
       (refresh_device_list bus' (release_device k st).2) !! k = None) ∧
  (device_status (scan_bus bus st) !! k = Some true ↔ seen_this_pass bus st k) ∧
  (handles_distinct st →
     (seen_this_pass bus st k ↔
        device e ∈ device_list bus ∧ supported_on bus (device e))).
Proof.
  intros Hf Hi He.
  assert (∀ bus st k e, ids_fresh st → m_libusb_init st = true →
    m_connected_devices st !! k = Some e →
    (m_connected_devices (refresh_device_list bus st) !! k = None ↔
       ¬ seen_this_pass bus st k ∧ claimed e = false) ∧
    (m_connected_devices (refresh_device_list bus st) !! k = None ∨
     m_connected_devices (refresh_device_list bus st) !! k = Some e)) as Hone.
  { clear. intros bus st k e Hf Hi He.
    destruct (refresh_old_entry bus st k e Hf Hi He) as (b & Hb & ->).
    destruct b; simpl.
    - split; [|by right]. split; [done|]. intros [Hns _]. destruct Hns.
      by apply Hb.
    - assert (¬ seen_this_pass bus st k) as Hns.
      { intros Hs. apply Hb in Hs. done. }
      destruct (claimed e).
      + split; [|by right]. split; [done|]. by intros [_ ?].
      + split; [|by left]. by split. }
  destruct (Hone bus st k e Hf Hi He) as [H1 H2].
  split_and!; [done|done| | | | |].
  - intros Hc buses. by apply claimed_entry_stays_passes.
  - by rewrite (release_device_Some st k e He).
  - intros bus'. rewrite (release_device_Some st k e He). cbn [snd].
    intros Hns.
    eapply (Hone bus' _ k (set_claimed false e)); [|done| |done].
    + by eapply ids_fresh_with_devices.
    + simpl. by rewrite lookup_insert_eq.
  - destruct (scan_bus_inv bus st Hf) as [_ _ _ _ _ I6 _ _].
    destruct (I6 k) as (b & -> & <-); [by eauto|].
    split; [by intros [= ->]|by intros ->].
  - intros Hd. by apply seen_this_pass_handle.
Qed.

Lemma refresh_removes_unseen_unclaimed_witness :
  ids_fresh st_one_claimed ∧ m_libusb_init st_one_claimed = true ∧
  m_connected_devices st_one_claimed !! 0 = Some (set_claimed true dev7) ∧
  m_connected_devices (passes [bus_empty; bus_empty] st_one_claimed) !! 0 =
    Some (set_claimed true dev7) ∧
  m_connected_devices
    (refresh_device_list bus_empty (release_device 0 st_one_claimed).2) !! 0 =
    None.
Proof.
  split; [exact ids_fresh_st_one_claimed|].
  split; [reflexivity|]. split; [reflexivity|].
  destruct (refresh_removes_unseen_unclaimed bus_empty st_one_claimed 0
    (set_claimed true dev7) ids_fresh_st_one_claimed eq_refl eq_refl)
    as (_ & _ & H3 & _ & H5 & _).
  split; [by apply H3|]. apply H5.
  intros (dev & Hin & _). by apply elem_of_nil in Hin.
Defined.

(** C6. A second pass over an unchanged bus leaves the manager exactly
    as the first pass left it: the registry has the same entries and no
    further id is handed out.  After the first pass every supported device
    on the bus is matched to an entry by its native handle. *)
Theorem refresh_device_list_idempotent bus st :
  ids_fresh st →
  refresh_device_list bus (refresh_device_list bus st) =
    refresh_device_list bus st ∧
  (m_libusb_init st = true →
   ∀ dev, dev ∈ device_list bus → supported_on bus dev →
     ∃ k, known (m_connected_devices (refresh_device_list bus st)) dev = Some k).
Proof.
  intros Hf. split.
  - destruct (m_libusb_init st) eqn:Hi.
    + by apply second_pass_fixed.
    + unfold refresh_device_list. by rewrite Hi; simpl; rewrite Hi.
  - intros Hi dev Hin Hs. rewrite refresh_device_list_eq by done. simpl.
    by apply visible_known_after.
Qed.

Lemma refresh_device_list_idempotent_witness :
  ids_fresh st_one ∧
  refresh_device_list bus_a (refresh_device_list bus_a st_one) =
    refresh_device_list bus_a st_one.
Proof.
  split; [exact ids_fresh_st_one|].
  apply (refresh_device_list_idempotent bus_a st_one ids_fresh_st_one).
Defined.

Lemma is_supported_spec v p :
  is_supported v p = true ↔ (v, p) ∈ supported_devices.
Proof.
  unfold is_supported, supported_devices.
  rewrite !orb_true_iff, !andb_true_iff, !N.eqb_eq, !elem_of_cons, elem_of_nil.
  split; [intros [[[-> ->]|[-> ->]]|[-> ->]]; tauto|].
  intros [[= -> ->]|[[= -> ->]|[[= -> ->]|[]]]]; tauto.
Qed.

(** C7. [is_supported] accepts exactly the three pairs of the allow-list.
    For a device on the bus whose handle the registry does not know yet,
    the pass leaves an entry for it exactly when its pair is on the list;
    that entry is the one built from the device's descriptor, under an id
    that was not in use. *)
Theorem only_supported_devices_registered bus st dev :
  ids_fresh st → m_libusb_init st = true →
  dev ∈ device_list bus →
  known (m_connected_devices st) dev = None →
  let desc := get_device_descriptor bus dev in
  let after := m_connected_devices (refresh_device_list bus st) in
  (∀ v p, is_supported v p = true ↔ (v, p) ∈ supported_devices) ∧
  ((∃ k e, after !! k = Some e ∧ device e = dev) ↔
     (idVendor desc, idProduct desc) ∈ supported_devices) ∧
  ((idVendor desc, idProduct desc) ∈ supported_devices →
     ∃ k, m_connected_devices st !! k = None ∧
          after !! k = Some (new_connected_device bus k dev)) ∧
  (∀ k e, after !! k = Some e → m_connected_devices st !! k = None →
     (vendor_id e, product_id e) ∈ supported_devices).
Proof.
  intros Hf Hi Hin Hk0 desc after.
  unfold after. rewrite refresh_device_list_eq by done. simpl.
  destruct (scan_bus_inv bus st Hf) as [I1 I2 I3 I4 I5 I6 I7 I8].
  set (s1 := scan_bus bus st) in *.
  assert (∀ k e, remove_gone s1 !! k = Some e →
    m_connected_devices st !! k = None →
    supported_on bus (device e) ∧ e = new_connected_device bus k (device e))
    as Hnew.
  { intros k e He Hk.
    eapply lookup_weaken in He; [|apply remove_gone_subseteq].
    destruct (decide (k < m_curr_id st)) as [Hlt|Hge].
    - rewrite I1 in He by done. congruence.
    - destruct (I3 k e) as (_ & ? & _ & ? & _); [lia|done|done]. }
  split_and!.
  - apply is_supported_spec.
  - rewrite <- is_supported_spec. split.
    + intros (k & e & He & Hd).
      destruct (m_connected_devices st !! k) as [e0|] eqn:Hk.
      * rewrite known_None in Hk0.
        eapply lookup_weaken in He; [|apply remove_gone_subseteq].
        rewrite I1 in He by eauto. destruct (Hk0 k e); congruence.
      * destruct (Hnew k e He Hk) as [Hs _]. by rewrite Hd in Hs.
    + intros Hs. destruct (visible_known_after bus st Hf dev Hin Hs) as [k Hk].
      destruct (known_Some_lookup _ _ _ Hk) as (e & ? & ?). eauto.
  - rewrite <- is_supported_spec. intros Hs.
    destruct (I8 dev Hin Hs) as (k & Hk & Hst).
    destruct (known_Some_lookup _ _ _ Hk) as (e & He & Hd).
    assert (¬ k < m_curr_id st) as Hge.
    { intros Hlt. apply I5 in Hk; [|done]. congruence. }
    assert (m_connected_devices st !! k = None) as Hnone.
    { destruct (m_connected_devices st !! k) eqn:Hm; [|done].
      destruct Hge. eauto. }
    exists k. split; [done|].
    assert (remove_gone s1 !! k = Some e) as He'.
    { rewrite remove_gone_lookup, He.
      by destruct (device_status s1 !! k) as [[]|]. }
    destruct (Hnew k e He' Hnone) as [_ Heq]. by rewrite He', Heq, Hd.
  - intros k e He Hk. destruct (Hnew k e He Hk) as [Hs ->]. simpl.
    by apply is_supported_spec.
Qed.

Lemma only_supported_devices_registered_witness :
  ids_fresh st_one ∧ m_libusb_init st_one = true ∧
  8 ∈ device_list bus_a ∧ known (m_connected_devices st_one) 8 = None ∧
  (¬ ∃ k e, m_connected_devices (refresh_device_list bus_a st_one) !! k = Some e
            ∧ device e = 8) ∧
  (∃ k e, m_connected_devices (refresh_device_list bus_a st_one) !! k = Some e
          ∧ device e = 9).
Proof.
  assert (8 ∈ device_list bus_a) as Hin8 by (right; left).
  assert (9 ∈ device_list bus_a) as Hin9 by (right; right; left).
  split; [exact ids_fresh_st_one|]. split; [reflexivity|].
  split; [exact Hin8|]. split; [reflexivity|].
  destruct (only_supported_devices_registered bus_a st_one 8
    ids_fresh_st_one eq_refl Hin8 eq_refl) as (_ & H8 & _).
  destruct (only_supported_devices_registered bus_a st_one 9
    ids_fresh_st_one eq_refl Hin9 eq_refl) as (_ & H9 & _).
  split.
  - intros H. apply H8 in H. simpl in H.
    apply is_supported_spec in H. discriminate H.
  - apply H9. simpl. by apply is_supported_spec.
Defined.

(** C10. An entry a pass creates is not removed by that pass: an id that
    is not in the registry when the pass begins and is in it after the
    scan of the bus is still there, with the same entry, when the pass
    ends; no id that entered the status map during the scan is marked
    unseen. *)
Theorem new_entry_survives_pass bus st k e :
  m_libusb_init st = true →
  m_connected_devices st !! k = None →
  devices (scan_bus bus st) !! k = Some e →
  m_connected_devices (refresh_device_list bus st) !! k = Some e ∧
  device_status (scan_bus bus st) !! k ≠ Some false.
Proof.
  intros Hi Hk He. rewrite refresh_device_list_eq by done. simpl.
  assert (device_status (scan_bus bus st) !! k ≠ Some false) as Hst.
  { intros Hst. apply scan_status_false in Hst. simpl in Hst.
    by rewrite mark_not_found_lookup, Hk in Hst. }
  split; [|done]. rewrite remove_gone_lookup, He.
  by destruct (device_status (scan_bus bus st) !! k) as [[]|].
Qed.

Lemma new_entry_survives_pass_witness :
  m_libusb_init st_one = true ∧
  m_connected_devices st_one !! 1 = None ∧
  devices (scan_bus bus_a st_one) !! 1 = Some (new_connected_device bus_a 1 9) ∧
  m_connected_devices (refresh_device_list bus_a st_one) !! 1 =
    Some (new_connected_device bus_a 1 9).
Proof.
  assert (devices (scan_bus bus_a st_one) !! 1 =
          Some (new_connected_device bus_a 1 9)) as He by (vm_compute; reflexivity).
  split; [reflexivity|]. split; [reflexivity|]. split; [exact He|].
  apply (new_entry_survives_pass bus_a st_one 1 _ eq_refl eq_refl He).
Defined.

End DeviceManagerSpec.

(** ** The flash-chip controller *)

Module NgpChipFacts.
Import NgpChip.

Section controller.
Context {H S : Type} `{!Transport H, !ProgressSink S}.
Context (cs : command_set).
Implicit Types (s : ngp_chip * H) (sink : S).

(** *** The bulk loop *)

Lemma transfer_units_no_controller {A} (unit_op : N → A → ChipM H A)
    todo total offset acc s :
  (transfer_units (S := S) unit_op todo total offset acc None s).1.1.1 =
    offset + N.of_nat todo.
Proof.
  revert offset acc s. induction todo as [|todo IH]; intros offset acc s.
  - simpl. unfold mret, ChipM_ret. simpl. lia.
  - cbn [transfer_units cancelled]. unfold mbind, ChipM_bind.
    destruct (unit_op offset acc s) as [acc' s']. cbn [fmap option_fmap option_map].
    rewrite IH. lia.
Qed.

Lemma transfer_units_count {A} (unit_op : N → A → ChipM H A)
    total sink (k : nat) todo (j : nat) acc s :
  (j ≤ k ≤ j + todo)%nat →
  (∀ i, (j ≤ i < k)%nat → is_cancelled (sink_after total sink i) = false) →
  ((k < j + todo)%nat → is_cancelled (sink_after total sink k) = true) →
  let r := transfer_units unit_op todo total (N.of_nat j) acc
             (Some (sink_after total sink j)) s in
  r.1.1.1 = N.of_nat k ∧ r.1.2 = Some (sink_after total sink k).
Proof.
  revert j acc s. induction todo as [|todo IH]; intros j acc s Hk Hrun Hstop.
  - assert (k = j) as -> by lia. done.
  - cbn [transfer_units cancelled].
    destruct (is_cancelled (sink_after total sink j)) eqn:Hc.
    + assert (k = j) as ->; [|done].
      destruct (decide (k = j)) as [|Hne]; [done|].
      rewrite Hrun in Hc by lia. done.
    + assert (j < k)%nat as Hlt.
      { destruct (decide (k = j)) as [->|Hne]; [|lia].
        rewrite Hstop in Hc by lia. done. }
      unfold mbind, ChipM_bind.
      destruct (unit_op (N.of_nat j) acc s) as [acc' s'].
      cbn [fmap option_fmap option_map].
      replace (N.of_nat j + 1) with (N.of_nat (Datatypes.S j)) by lia.
      change (report_progress (N.of_nat (Datatypes.S j)) total
                (sink_after total sink j))
        with (sink_after total sink (Datatypes.S j)).
      apply IH; [lia| |].
      * intros i Hi. apply Hrun. lia.
      * intros Hi. apply Hstop. lia.
Qed.

Lemma read_bytes_length_aux address total todo offset data controller s :
  length data = N.to_nat offset →
  let r := transfer_units (S := S)
             (λ offset data,
                w ← read (address_wrap (address + offset)); mret (data ++ [w]))
             todo total offset data controller s in
  length r.1.1.2 = N.to_nat r.1.1.1.
Proof.
  set (op := λ offset data,
               w ← read (address_wrap (address + offset)); mret (data ++ [w])).
  cbn zeta. revert offset data controller s.
  induction todo as [|todo IH]; intros offset data controller s Hlen; [done|].
  cbn [transfer_units]. destruct (cancelled controller); [done|].
  unfold mbind, ChipM_bind.
  destruct (op offset data s) as [data' s'] eqn:Hop.
  apply IH.
  unfold op, mbind, ChipM_bind, read, mret, ChipM_ret in Hop.
  destruct (transport_read _ _) as [w h]. injection Hop as <- <-.
  rewrite length_app. simpl. lia.
Qed.

(** *** The belief-state *)

Lemma issue_mode seq s : m_mode (issue seq s).2.1 = m_mode s.1.
Proof.
  revert s. induction seq as [|[a w] seq IH]; intros s; [done|].
  cbn [issue]. unfold mbind, ChipM_bind, write. by rewrite IH.
Qed.

Lemma run_query_erasing q s :
  m_mode s.1 = ERASE → run_query q s = (erasing_answer q, s).
Proof.
  intros Hm. destruct q; unfold run_query, is_erasing, current_mode,
    mbind, ChipM_bind, get_chip, mret, ChipM_ret; rewrite Hm; [|done].
  by rewrite bool_decide_eq_true_2.
Qed.

Lemma run_queries_erasing qs s :
  m_mode s.1 = ERASE → run_queries qs s = (erasing_answer <$> qs, s).
Proof.
  intros Hm. induction qs as [|q qs IH]; [done|].
  cbn [run_queries]. unfold mbind, ChipM_bind.
  by rewrite (run_query_erasing q s Hm), IH.
Qed.

Lemma test_erasing_poll s :
  (test_erasing cs s).1 = negb (poll_complete cs s) ∧
  m_mode (test_erasing cs s).2.1 =
    if poll_complete cs s then READ else m_mode s.1.
Proof.
  unfold test_erasing, poll_complete, mbind, ChipM_bind, get_chip, read.
  destruct s as [c h]. cbn [fst snd].
  destruct (transport_read (m_last_erased_addr c) h) as [w1 h1]. cbn [fst snd].
  destruct (transport_read (m_last_erased_addr c) h1) as [w2 h2].
  case_decide as Hw.
  - by rewrite bool_decide_eq_true_2.
  - by rewrite bool_decide_eq_false_2.
Qed.

(** *** The transfer as a series of transport operations *)

Lemma write_all_app (l1 l2 : list (N * N)) (h : H) :
  write_all (l1 ++ l2) h = write_all l2 (write_all l1 h).
Proof. unfold write_all. apply foldl_app. Qed.

Lemma issue_writes seq s : issue seq s = ((), (s.1, write_all seq s.2)).
Proof.
  revert s. induction seq as [|[a w] seq IH]; intros [c h]; [done|].
  cbn [issue]. unfold mbind, ChipM_bind, write. cbn [fst snd].
  by rewrite IH.
Qed.

Lemma program_unit_writes (c : ngp_chip) (h : H) address data :
  program_unit cs address data (c, h) =
    ((), (programmed_chip (bool_decide (m_mode c = BYPASS)) 1 c,
          write_all
            ((if bool_decide (m_mode c = BYPASS)
              then cmd_bypass_program cs else cmd_program cs)
               ++ [(address, data)]) h)).
Proof.
  unfold program_unit, program_byte, mbind, ChipM_bind, get_chip. cbn [fst snd].
  rewrite write_all_app. case_decide as Hm.
  - rewrite bool_decide_eq_true_2 by done. by rewrite issue_writes.
  - rewrite bool_decide_eq_false_2 by done. by rewrite issue_writes.
Qed.

Lemma run_units_program address data count (j : nat) (c : ngp_chip) (h : H) :
  run_units
    (λ offset _,
       program_unit cs (address_wrap (address + offset))
         (data !!! N.to_nat offset))
    count (N.of_nat j) () (c, h) =
    ((), (programmed_chip (bool_decide (m_mode c = BYPASS)) count c,
          write_all
            (program_writes cs (bool_decide (m_mode c = BYPASS)) address data
               j count) h)).
Proof.
  revert j c h. induction count as [|count IH]; intros j c h.
  - cbn. by destruct (bool_decide _).
  - cbn [run_units]. unfold mbind, ChipM_bind.
    rewrite program_unit_writes, Nat2N.id.
    replace (N.of_nat j + 1) with (N.of_nat (Datatypes.S j)) by lia.
    unfold program_writes. cbn [seq fmap list_fmap concat].
    rewrite (write_all_app (unit_writes _ _ _ _ _)). unfold unit_writes at 1.
    destruct (bool_decide (m_mode c = BYPASS)) eqn:Hb; cbn [programmed_chip].
    + by rewrite IH, Hb.
    + rewrite IH.
      replace (bool_decide (m_mode (with_mode READ c) = BYPASS)) with false
        by done.
      by destruct count.
Qed.

Lemma run_units_read address count (j : nat) (data : list N)
    (c : ngp_chip) (h : H) :
  run_units
    (λ offset data,
       w ← read (address_wrap (address + offset)); mret (data ++ [w]))
    count (N.of_nat j) data (c, h) =
    (data ++ (read_all (unit_addresses address j count) h).1,
     (c, (read_all (unit_addresses address j count) h).2)).
Proof.
  revert j data h. induction count as [|count IH]; intros j data h.
  - cbn. by rewrite app_nil_r.
  - cbn [run_units]. unfold mbind at 1. unfold ChipM_bind at 1.
    unfold mbind at 1. unfold ChipM_bind at 1. unfold read at 1.
    unfold unit_addresses. cbn [seq fmap list_fmap read_all fst snd].
    destruct (transport_read (address_wrap (address + N.of_nat j)) h)
      as [w h1].
    unfold mret at 1. unfold ChipM_ret at 1.
    replace (N.of_nat j + 1) with (N.of_nat (Datatypes.S j)) by lia.
    rewrite IH. unfold unit_addresses.
    destruct (read_all _ h1) as [ws h2]. cbn [fst snd].
    by rewrite <- app_assoc.
Qed.

Lemma transfer_units_no_controller_run {A} (unit_op : N → A → ChipM H A)
    todo total offset acc s :
  transfer_units (S := S) unit_op todo total offset acc None s =
    ((offset + N.of_nat todo, (run_units unit_op todo offset acc s).1, None),
     (run_units unit_op todo offset acc s).2).
Proof.
  revert offset acc s. induction todo as [|todo IH]; intros offset acc s.
  - cbn. unfold mret, ChipM_ret. do 3 f_equal. lia.
  - cbn [transfer_units cancelled run_units]. unfold mbind, ChipM_bind.
    destruct (unit_op offset acc s) as [acc' s'].
    cbn [fmap option_fmap option_map]. rewrite IH. do 3 f_equal. lia.
Qed.

Lemma transfer_units_run {A} (unit_op : N → A → ChipM H A)
    total sink (k : nat) todo (j : nat) acc s :
  (j ≤ k ≤ j + todo)%nat →
  (∀ i, (j ≤ i < k)%nat → is_cancelled (sink_after total sink i) = false) →
  ((k < j + todo)%nat → is_cancelled (sink_after total sink k) = true) →
  transfer_units unit_op todo total (N.of_nat j) acc
    (Some (sink_after total sink j)) s =
    ((N.of_nat k, (run_units unit_op (k - j) (N.of_nat j) acc s).1,
      Some (sink_after total sink k)),
     (run_units unit_op (k - j) (N.of_nat j) acc s).2).
Proof.
  revert j acc s. induction todo as [|todo IH]; intros j acc s Hk Hrun Hstop.
  - assert (k = j) as -> by lia. by rewrite Nat.sub_diag.
  - cbn [transfer_units cancelled].
    destruct (is_cancelled (sink_after total sink j)) eqn:Hc.
    + assert (k = j) as ->; [|by rewrite Nat.sub_diag].
      destruct (decide (k = j)) as [|Hne]; [done|].
      rewrite Hrun in Hc by lia. done.
    + assert (j < k)%nat as Hlt.
      { destruct (decide (k = j)) as [->|Hne]; [|lia].
        rewrite Hstop in Hc by lia. done. }
      replace (k - j)%nat with (Datatypes.S (k - Datatypes.S j)) by lia.
      cbn [run_units]. unfold mbind, ChipM_bind.
      destruct (unit_op (N.of_nat j) acc s) as [acc' s'].
      cbn [fmap option_fmap option_map].
      replace (N.of_nat j + 1) with (N.of_nat (Datatypes.S j)) by lia.
      change (report_progress (N.of_nat (Datatypes.S j)) total
                (sink_after total sink j))
        with (sink_after total sink (Datatypes.S j)).
      apply IH; [lia| |].
      * intros i Hi. apply Hrun. lia.
      * intros Hi. apply Hstop. lia.
Qed.

(** *** Polling an erase *)

Lemma test_erasing_reads (c : ngp_chip) (h : H) :
  test_erasing cs (c, h) =
    let '(w1, h1) := transport_read (m_last_erased_addr c) h in
    let '(w2, h2) := transport_read (m_last_erased_addr c) h1 in
    if decide (N.land w1 (status_bit cs) = N.land w2 (status_bit cs))
    then (false, (with_mode READ c, h2))
    else (true, (c, h2)).
Proof.
  unfold test_erasing, mbind, ChipM_bind, get_chip, read. cbn [fst snd].
  destruct (transport_read (m_last_erased_addr c) h) as [w1 h1]. cbn [fst snd].
  destruct (transport_read (m_last_erased_addr c) h1) as [w2 h2].
  by case_decide.
Qed.

Lemma erase_block_writes block_address s :
  erase_block cs block_address s =
    ((), (with_mode ERASE (with_last_erased_addr block_address s.1),
          write_all (cmd_erase_block cs block_address) s.2)).
Proof.
  unfold erase_block, mbind, ChipM_bind. by rewrite issue_writes.
Qed.

Lemma erase_chip_writes s :
  erase_chip cs s =
    ((), (with_mode ERASE s.1, write_all (cmd_erase_chip cs) s.2)).
Proof.
  unfold erase_chip, mbind, ChipM_bind. by rewrite issue_writes.
Qed.

End controller.

End NgpChipFacts.

(** ** Programming the simulated chip *)

Module SimChipFacts.
Import NgpChip SimChip.

Lemma issue_program_suffix cs (c : ngp_chip) (s : sim_chip) received rest :
  cmd_program cs = received ++ rest →
  sim_pending s = received →
  issue (Transport0 := sim_transport cs) rest (c, s) =
    ((), (c, with_pending (cmd_program cs) s)).
Proof.
  revert s received. induction rest as [|[a w] rest IH]; intros s received Hcmd Hp.
  - rewrite app_nil_r in Hcmd. destruct s. unfold with_pending. simpl in *.
    by rewrite Hcmd, Hp.
  - cbn [issue]. unfold mbind, ChipM_bind, write. cbn [fst snd transport_write sim_transport].
    rewrite (IH _ (received ++ [(a, w)])).
    + unfold sim_write, with_pending. rewrite decide_False; [done|].
      rewrite Hp, Hcmd. intros Heq. apply (f_equal length) in Heq.
      rewrite length_app in Heq. simpl in Heq. lia.
    + by rewrite Hcmd, <- app_assoc.
    + unfold sim_write. rewrite decide_False.
      * simpl. rewrite Hp, decide_True; [done|].
        exists rest. by rewrite Hcmd, <- app_assoc.
      * rewrite Hp, Hcmd. intros Heq. apply (f_equal length) in Heq.
        rewrite length_app in Heq. simpl in Heq. lia.
Qed.

Lemma program_byte_sim cs (c : ngp_chip) (s : sim_chip) address data :
  sim_pending s = [] →
  program_byte (Transport0 := sim_transport cs) cs address data (c, s) =
    ((), (with_mode READ c,
          sim_write cs address data (with_pending (cmd_program cs) s))).
Proof.
  intros Hp. unfold program_byte, mbind, ChipM_bind.
  by rewrite (issue_program_suffix cs c s [] (cmd_program cs) eq_refl Hp).
Qed.

Lemma land_bits_subset (old data : N) i :
  N.testbit (N.land old data) i = true → N.testbit old i = true.
Proof. rewrite N.land_spec. by intros [? _]%andb_true_iff. Qed.

Lemma land_erased (data : N) : data ≤ 0xFF → N.land 0xFF data = data.
Proof.
  intros Hd. rewrite N.land_comm. change 0xFF with (N.ones 8).
  rewrite N.land_ones. apply N.mod_small. change (2 ^ 8) with 256. lia.
Qed.

(** *** Polling the erasing chip *)

Lemma with_busy_reads_same (hw : erasing_chip) :
  with_busy_reads (busy_reads hw) hw = hw.
Proof. by destruct hw. Qed.

Lemma test_erasing_busy cs (c : ngp_chip) (hw : erasing_chip) (r : nat) :
  status_mask hw = status_bit cs → status_bit cs ≠ 0 →
  m_last_erased_addr c = busy_block hw →
  busy_reads hw = Datatypes.S (Datatypes.S r) →
  test_erasing cs (c, hw) = (true, (c, with_busy_reads r hw)).
Proof.
  intros Hmask Hbit Haddr Hbusy. rewrite NgpChipFacts.test_erasing_reads, Haddr.
  cbn [transport_read erasing_transport]. unfold erasing_read at 1.
  rewrite decide_True by (split; [done|by rewrite Hbusy]).
  unfold erasing_read. cbn [busy_block busy_reads toggle status_mask].
  rewrite Hbusy. cbn [pred].
  rewrite decide_True by done. cbn [pred].
  rewrite Hmask, negb_involutive, decide_False.
  - unfold with_busy_reads. by rewrite Hmask.
  - destruct (toggle hw); cbn [negb];
      rewrite N.land_diag, N.land_0_l; congruence.
Qed.

Lemma test_erasing_done cs (c : ngp_chip) (hw : erasing_chip) :
  busy_reads hw = O →
  test_erasing cs (c, hw) = (false, (with_mode READ c, hw)).
Proof.
  intros Hbusy. rewrite NgpChipFacts.test_erasing_reads.
  cbn [transport_read erasing_transport]. unfold erasing_read.
  rewrite !decide_False by (rewrite Hbusy; tauto).
  by rewrite decide_True.
Qed.

Lemma poll_erase_busy cs (c : ngp_chip) (j : nat) :
  ∀ (hw : erasing_chip) (r : nat),
  status_mask hw = status_bit cs → status_bit cs ≠ 0 →
  m_last_erased_addr c = busy_block hw →
  busy_reads hw = (2 * j + r)%nat →
  poll_erase cs j (c, hw) = (replicate j true, (c, with_busy_reads r hw)).
Proof.
  induction j as [|j IH]; intros hw r Hmask Hbit Haddr Hbusy.
  - cbn. simpl in Hbusy. by rewrite <- Hbusy, with_busy_reads_same.
  - cbn [poll_erase]. unfold mbind, ChipM_bind.
    rewrite (test_erasing_busy cs c hw (2 * j + r)) by (done || lia).
    by rewrite (IH (with_busy_reads (2 * j + r) hw) r).
Qed.

Lemma poll_erase_complete cs (c : ngp_chip) (hw : erasing_chip) (d : nat) :
  status_mask hw = status_bit cs → status_bit cs ≠ 0 →
  m_last_erased_addr c = busy_block hw →
  busy_reads hw = (2 * d)%nat →
  poll_erase cs (Datatypes.S d) (c, hw) =
    (replicate d true ++ [false], (with_mode READ c, with_busy_reads O hw)).
Proof.
  intros Hmask Hbit Haddr Hbusy.
  assert (∀ n s, poll_erase cs (n + 1) s =
    let '(l, s1) := poll_erase cs n s in
    let '(b, s2) := test_erasing cs s1 in (l ++ [b], s2)) as Hsnoc.
  { clear. induction n as [|n IH]; intros s.
    - cbn. unfold mbind, ChipM_bind. by destruct (test_erasing cs s).
    - cbn [Nat.add poll_erase]. unfold mbind, ChipM_bind, mret, ChipM_ret.
      destruct (test_erasing cs s) as [b s1]. rewrite IH.
      destruct (poll_erase cs n s1) as [l s2].
      by destruct (test_erasing cs s2). }
  replace (Datatypes.S d) with (d + 1)%nat by lia. rewrite Hsnoc.
  rewrite (poll_erase_busy cs c d hw O) by (done || lia).
  by rewrite test_erasing_done.
Qed.


Lemma erasing_write_all (writes : list (N * N)) (hw : erasing_chip) :
  status_mask (write_all writes hw) = status_mask hw ∧
  busy_block (write_all writes hw) = busy_block hw ∧
  busy_reads (write_all writes hw) = busy_reads hw.
Proof.
  revert hw. induction writes as [|[a w] writes IH]; intros hw; [done|].
  change (write_all ((a, w) :: writes) hw)
    with (write_all writes (erasing_write a w hw)).
  destruct (IH (erasing_write a w hw)) as (-> & -> & ->). done.
Qed.

End SimChipFacts.

(** ** The stated properties of the chip controller *)

Module NgpChipSpec.
Import NgpChip SimChip NgpChipFacts SimChipFacts Examples.

Example program_then_read :
  let T := sim_transport flash_commands in
  ((written ← program_bytes (Transport0 := T) (S := sim_sink)
                flash_commands 0x100 [0; 1; 2] 3 None;
    back ← read_bytes (Transport0 := T) (S := sim_sink) 0x100 3 None;
    mret (written.1.1, back.1.1, back.1.2)) (chip0, sim_f0)).1 =
    (3, 3, [0; 1; 2]).
Proof. vm_compute. reflexivity. Qed.

(** C3. With a sink that first signals cancellation when exactly [k] of
    the [n] units have been transferred, [read_bytes] and [program_bytes]
    stop there: they return the count [k], and the transport has been
    asked for exactly the first [k] units and nothing more, the reads of
    the first [k] addresses in order (whose words are the bytes returned)
    or the program writes of the first [k] bytes in order.  With a sink
    that does not cancel during the transfer ([k = n]) and with no sink at
    all they transfer all [n] units and return [n].  The result is a count
    in every case. *)
Theorem bulk_transfer_returns_count {H S : Type} `{!Transport H, !ProgressSink S}
    (cs : command_set) (address n : N) (data : list N) (sink : S) (k : nat)
    (s : ngp_chip * H) :
  (k ≤ N.to_nat n)%nat →
  cancels_after n sink k ∨ (k = N.to_nat n ∧ never_cancels n sink) →
  let bypass := bool_decide (m_mode s.1 = BYPASS) in
  (read_bytes address n (Some sink) s).1.1.1 = N.of_nat k ∧
  length (read_bytes address n (Some sink) s).1.1.2 = k ∧
  (program_bytes cs address data n (Some sink) s).1.1.1 = N.of_nat k ∧
  (read_bytes (S := S) address n None s).1.1.1 = n ∧
  (program_bytes (S := S) cs address data n None s).1.1.1 = n ∧
  read_bytes address n (Some sink) s =
    ((N.of_nat k, (read_all (unit_addresses address 0 k) s.2).1,
      Some (sink_after n sink k)),
     (s.1, (read_all (unit_addresses address 0 k) s.2).2)) ∧
  program_bytes cs address data n (Some sink) s =
    ((N.of_nat k, (), Some (sink_after n sink k)),
     (programmed_chip bypass k s.1,
      write_all (program_writes cs bypass address data 0 k) s.2)) ∧
  read_bytes (S := S) address n None s =
    ((n, (read_all (unit_addresses address 0 (N.to_nat n)) s.2).1, None),
     (s.1, (read_all (unit_addresses address 0 (N.to_nat n)) s.2).2)) ∧
  program_bytes (S := S) cs address data n None s =
    ((n, (), None),
     (programmed_chip bypass (N.to_nat n) s.1,
      write_all (program_writes cs bypass address data 0 (N.to_nat n)) s.2)).
Proof.
  intros Hk Hsink bypass.
  assert ((∀ i, (0 ≤ i < k)%nat → is_cancelled (sink_after n sink i) = false) ∧
          ((k < 0 + N.to_nat n)%nat → is_cancelled (sink_after n sink k) = true))
    as [Hrun Hstop].
  { destruct Hsink as [[Hrun Hstop]|[-> Hrun]].
    - split; [intros i ?; apply Hrun; lia|done].
    - split; [intros i ?; apply Hrun; lia|lia]. }
  assert (0 ≤ k ≤ 0 + N.to_nat n)%nat as Hk' by lia.
  assert (∀ {A} (unit_op : N → A → ChipM H A) acc,
    (transfer_units unit_op (N.to_nat n) n 0 acc (Some sink) s).1.1.1 =
      N.of_nat k) as Hcount.
  { intros A unit_op acc.
    apply (transfer_units_count unit_op n sink k (N.to_nat n) 0 acc s Hk' Hrun Hstop). }
  assert (∀ {A} (unit_op : N → A → ChipM H A) acc,
    transfer_units unit_op (N.to_nat n) n 0 acc (Some sink) s =
      ((N.of_nat k, (run_units unit_op k 0 acc s).1, Some (sink_after n sink k)),
       (run_units unit_op k 0 acc s).2)) as Hexact.
  { intros A unit_op acc.
    pose proof (transfer_units_run unit_op n sink k (N.to_nat n) 0 acc s
      Hk' Hrun Hstop) as Heq.
    by rewrite Nat.sub_0_r in Heq. }
  destruct s as [c h]. cbn [fst snd] in *.
  split_and!.
  - apply Hcount.
  - pose proof (read_bytes_length_aux address n (N.to_nat n) 0 []
      (Some sink) (c, h) eq_refl) as Hlen.
    cbn zeta in Hlen. unfold read_bytes. rewrite Hlen, Hcount. lia.
  - apply Hcount.
  - unfold read_bytes. rewrite transfer_units_no_controller. lia.
  - unfold program_bytes. rewrite transfer_units_no_controller. lia.
  - unfold read_bytes. rewrite Hexact.
    by rewrite (run_units_read address k 0 [] c h).
  - unfold program_bytes. rewrite Hexact.
    by rewrite (run_units_program cs address data k 0 c h).
  - unfold read_bytes. rewrite transfer_units_no_controller_run.
    rewrite (run_units_read address (N.to_nat n) 0 [] c h). cbn [fst snd].
    do 3 f_equal. lia.
  - unfold program_bytes. rewrite transfer_units_no_controller_run.
    rewrite (run_units_program cs address data (N.to_nat n) 0 c h).
    cbn [fst snd]. do 3 f_equal. lia.
Qed.

Lemma bulk_transfer_returns_count_witness :
  (2 ≤ N.to_nat 5)%nat ∧
  cancels_after 5 cancel_after_two 2 ∧
  (read_bytes (Transport0 := sim_transport flash_commands)
     0x10 5 (Some cancel_after_two) (chip0, sim_f0)).1.1 = (2, [0xF0; 0xFF]) ∧
  (program_bytes (Transport0 := sim_transport flash_commands) flash_commands
     0x20 [1; 2; 3; 4; 5] 5 (Some cancel_after_two) (chip0, sim_f0)).1.1.1 = 2 ∧
  (cell (program_bytes (Transport0 := sim_transport flash_commands)
           flash_commands 0x20 [1; 2; 3; 4; 5] 5 (Some cancel_after_two)
           (chip0, sim_f0)).2.2) <$> [0x20; 0x21; 0x22; 0x23; 0x24] =
    [1; 2; 0xFF; 0xFF; 0xFF].
Proof.
  assert (2 ≤ N.to_nat 5)%nat as H1 by (vm_compute; lia).
  assert (cancels_after 5 cancel_after_two 2) as H2.
  { split; [|reflexivity]. intros [|[|j]] Hj; [reflexivity|reflexivity|lia]. }
  split; [exact H1|]. split; [exact H2|].
  pose proof (bulk_transfer_returns_count (Transport0 := sim_transport flash_commands)
    flash_commands 0x10 5 [1; 2; 3; 4; 5] cancel_after_two 2 (chip0, sim_f0)
    H1 (or_introl H2)) as (_ & _ & _ & _ & _ & Hr & _).
  pose proof (bulk_transfer_returns_count (Transport0 := sim_transport flash_commands)
    flash_commands 0x20 5 [1; 2; 3; 4; 5] cancel_after_two 2 (chip0, sim_f0)
    H1 (or_introl H2)) as (_ & _ & _ & _ & _ & _ & Hp & _).
  split; [by rewrite Hr|]. split; by rewrite Hp.
Defined.

(** C4. [erase_chip] and [erase_block] issue their command sequence and
    leave the belief-state ERASE; [erase_block] also records its target.
    While the belief-state is ERASE, any series of [is_erasing] and
    [current_mode] calls answers "erasing" and leaves controller and
    hardware as they were, so it cannot see the erase end.  [test_erasing]
    reads the erase target twice, and the belief-state becomes READ exactly
    when the status bit is the same in both reads; otherwise it stays
    ERASE.  On a chip that toggles at the target for [2 * d] more reads,
    the first [d] polls after [erase_block] answer "erasing" and leave
    ERASE, and the next one answers "done" and leaves READ. *)
Theorem erase_belief_state {H : Type} `{!Transport H} (cs : command_set)
    (s : ngp_chip * H) (block_address : N) (qs : list erase_query) :
  m_mode (erase_chip cs s).2.1 = ERASE ∧
  m_mode (erase_block cs block_address s).2.1 = ERASE ∧
  run_queries qs (erase_chip cs s).2 =
    (erasing_answer <$> qs, (erase_chip cs s).2) ∧
  run_queries qs (erase_block cs block_address s).2 =
    (erasing_answer <$> qs, (erase_block cs block_address s).2) ∧
  (∀ s', m_mode s'.1 = ERASE →
     run_queries qs s' = (erasing_answer <$> qs, s') ∧
     (m_mode (test_erasing cs s').2.1 = READ ↔ poll_complete cs s' = true) ∧
     (m_mode (test_erasing cs s').2.1 = ERASE ↔ poll_complete cs s' = false) ∧
     (test_erasing cs s').1 = negb (poll_complete cs s')) ∧
  erase_chip cs s =
    ((), (with_mode ERASE s.1, write_all (cmd_erase_chip cs) s.2)) ∧
  erase_block cs block_address s =
    ((), (with_mode ERASE (with_last_erased_addr block_address s.1),
          write_all (cmd_erase_block cs block_address) s.2)) ∧
  test_erasing cs (erase_block cs block_address s).2 =
    (let h0 := write_all (cmd_erase_block cs block_address) s.2 in
     let '(w1, h1) := transport_read block_address h0 in
     let '(w2, h2) := transport_read block_address h1 in
     if decide (N.land w1 (status_bit cs) = N.land w2 (status_bit cs))
     then (false, (with_mode READ (with_last_erased_addr block_address s.1), h2))
     else (true, (with_mode ERASE (with_last_erased_addr block_address s.1), h2))) ∧
  (∀ (c : ngp_chip) (h : H),
     test_erasing cs (c, h) =
       let '(w1, h1) := transport_read (m_last_erased_addr c) h in
       let '(w2, h2) := transport_read (m_last_erased_addr c) h1 in
       if decide (N.land w1 (status_bit cs) = N.land w2 (status_bit cs))
       then (false, (with_mode READ c, h2))
       else (true, (c, h2))) ∧
  (∀ (c : ngp_chip) (hw : erasing_chip) (d : nat),
     status_mask hw = status_bit cs → status_bit cs ≠ 0 →
     busy_block hw = block_address → busy_reads hw = (2 * d)%nat →
     let s1 := (erase_block cs block_address (c, hw)).2 in
     (∀ j, (j ≤ d)%nat →
        (poll_erase cs j s1).1 = replicate j true ∧
        m_mode (poll_erase cs j s1).2.1 = ERASE) ∧
     (poll_erase cs (Datatypes.S d) s1).1 = replicate d true ++ [false] ∧
     m_mode (poll_erase cs (Datatypes.S d) s1).2.1 = READ).
Proof.
  assert (m_mode (erase_chip cs s).2.1 = ERASE) as Hchip.
  { unfold erase_chip, mbind, ChipM_bind. by destruct (issue _ s) as [[] ?]. }
  assert (m_mode (erase_block cs block_address s).2.1 = ERASE) as Hblock.
  { unfold erase_block, mbind, ChipM_bind. by destruct (issue _ s) as [[] ?]. }
  split_and!; [done|done|by apply run_queries_erasing..| | | | | |].
  - intros s' Hm. destruct (test_erasing_poll cs s') as [Hr Hmode].
    rewrite Hmode, Hm. split_and!; [by apply run_queries_erasing| | |done];
      by destruct (poll_complete cs s').
  - apply erase_chip_writes.
  - apply erase_block_writes.
  - rewrite erase_block_writes. cbn [snd]. rewrite test_erasing_reads.
    cbn zeta. cbn [m_last_erased_addr with_mode with_last_erased_addr].
    destruct (transport_read block_address _) as [w1 h1].
    destruct (transport_read block_address h1) as [w2 h2].
    by case_decide.
  - apply test_erasing_reads.
  - intros c hw d Hmask Hbit Hblk Hbusy s1. unfold s1.
    rewrite erase_block_writes. cbn [fst snd].
    destruct (erasing_write_all (cmd_erase_block cs block_address) hw)
      as (Hm' & Hb' & Hr').
    set (hw1 := write_all (cmd_erase_block cs block_address) hw) in *.
    set (c1 := with_mode ERASE (with_last_erased_addr block_address c)).
    assert (status_mask hw1 = status_bit cs) as Hmask1 by congruence.
    assert (m_last_erased_addr c1 = busy_block hw1) as Haddr1
      by (rewrite Hb', Hblk; done).
    split_and!.
    + intros j Hj.
      rewrite (poll_erase_busy cs c1 j hw1 (2 * (d - j))) by (done || lia).
      done.
    + rewrite (poll_erase_complete cs c1 hw1 d) by (done || lia). done.
    + rewrite (poll_erase_complete cs c1 hw1 d) by (done || lia). done.
Qed.

Lemma erase_belief_state_witness :
  status_mask erasing_8000 = status_bit flash_commands ∧
  status_bit flash_commands ≠ 0 ∧
  busy_block erasing_8000 = 0x8000 ∧ busy_reads erasing_8000 = (2 * 2)%nat ∧
  (poll_erase flash_commands 2
     (erase_block flash_commands 0x8000 (chip0, erasing_8000)).2).1 =
    [true; true] ∧
  m_mode (poll_erase flash_commands 2
     (erase_block flash_commands 0x8000 (chip0, erasing_8000)).2).2.1 = ERASE ∧
  (poll_erase flash_commands 3
     (erase_block flash_commands 0x8000 (chip0, erasing_8000)).2).1 =
    [true; true; false] ∧
  m_mode (poll_erase flash_commands 3
     (erase_block flash_commands 0x8000 (chip0, erasing_8000)).2).2.1 = READ.
Proof.
  assert (status_bit flash_commands ≠ 0) as Hbit by (vm_compute; discriminate).
  split; [reflexivity|]. split; [exact Hbit|].
  split; [reflexivity|]. split; [reflexivity|].
  destruct (erase_belief_state flash_commands (chip0, erasing_8000) 0x8000 [])
    as (_ & _ & _ & _ & _ & _ & _ & _ & _ & Hpoll).
  destruct (Hpoll chip0 erasing_8000 2%nat eq_refl Hbit eq_refl eq_refl)
    as (Hbusy & Hdone & Hread).
  destruct (Hbusy 2%nat (le_n 2)) as [Hl He].
  split; [exact Hl|]. split; [exact He|]. split; [exact Hdone|exact Hread].
Defined.



End NgpChipSpec.

(** ** More of the device manager *)

Module DeviceManagerOpsFacts.
Import DeviceManager DeviceManagerOps DeviceManagerFacts.

Implicit Types (m : gmap N connected_device) (k : N) (e : connected_device)
  (dev : libusb_device) (st : libusb_device_manager) (bus : usb_bus).

(** *** The list of ids *)

Lemma entries_keys_NoDup {A} (m : gmap N A) : NoDup (entries m).*1.
Proof.
  unfold entries. rewrite merge_sort_Permutation.
  apply NoDup_fst_map_to_list.
Qed.

Lemma sorted_keys_strict {A} (l : list (N * A)) :
  StronglySorted key_le l → NoDup l.*1 → StronglySorted N.lt l.*1.
Proof.
  induction 1 as [|[k a] l Hs IH Hall]; simpl; [constructor|].
  intros [Hnin Hnd]%NoDup_cons. constructor; [by apply IH|].
  apply Forall_forall. intros k' Hin.
  apply list_elem_of_fmap in Hin as ([k2 a2] & -> & Hin2).
  rewrite Forall_forall in Hall. specialize (Hall _ Hin2).
  unfold key_le in Hall. simpl in *.
  assert (k ≠ k2); [|lia].
  intros ->. apply Hnin. apply list_elem_of_fmap. by exists (k2, a2).
Qed.

Lemma entries_keys_sorted {A} (m : gmap N A) :
  StronglySorted N.lt (entries m).*1.
Proof.
  apply sorted_keys_strict; [apply entries_sorted|apply entries_keys_NoDup].
Qed.

Lemma entries_length {A} (m : gmap N A) : length (entries m) = size m.
Proof.
  unfold entries. rewrite merge_sort_Permutation. apply length_map_to_list.
Qed.

Lemma sorted_lt_unique (l1 l2 : list N) :
  StronglySorted N.lt l1 → StronglySorted N.lt l2 →
  (∀ x, x ∈ l1 ↔ x ∈ l2) → l1 = l2.
Proof.
  intros H1. revert l2. induction H1 as [|x l1 Hs1 IH Hall1]; intros l2 H2 Heq.
  - destruct l2 as [|y l2]; [done|].
    destruct (not_elem_of_nil y). apply Heq. by left.
  - destruct H2 as [|y l2 Hs2 Hall2].
    { destruct (not_elem_of_nil x). apply Heq. by left. }
    rewrite Forall_forall in Hall1, Hall2.
    assert (x = y) as <-.
    { assert (x ∈ y :: l2) as Hx by (apply Heq; by left).
      assert (y ∈ x :: l1) as Hy by (apply Heq; by left).
      apply elem_of_cons in Hx as [?|Hx]; [done|].
      apply elem_of_cons in Hy as [?|Hy]; [done|].
      apply Hall2 in Hx. apply Hall1 in Hy. lia. }
    f_equal. apply IH; [done|]. intros z. split; intros Hz.
    + assert (z ∈ x :: l2) as Hz' by (apply Heq; by right).
      apply elem_of_cons in Hz' as [->|?]; [|done].
      apply Hall1 in Hz. lia.
    + assert (z ∈ x :: l1) as Hz' by (apply Heq; by right).
      apply elem_of_cons in Hz' as [->|?]; [|done].
      apply Hall2 in Hz. lia.
Qed.

Lemma entries_keys_same_dom {A} (m1 m2 : gmap N A) :
  (∀ k, is_Some (m1 !! k) ↔ is_Some (m2 !! k)) →
  (entries m1).*1 = (entries m2).*1.
Proof.
  intros Hdom. apply sorted_lt_unique; [apply entries_keys_sorted..|].
  intros k. by rewrite !elem_of_entries_keys.
Qed.

(** *** Reading a field of an entry *)

Lemma read_field {A} (f : connected_device → A) k st :
  (e ← find_or_throw k; mret (f e)) st =
    (match m_connected_devices st !! k with
     | Some e => inr (f e)
     | None => inl (unknown_device k)
     end, st).
Proof.
  destruct (m_connected_devices st !! k) as [e|] eqn:He;
    unfold mbind, M_bind.
  - by rewrite (find_or_throw_Some st k e He).
  - by rewrite (find_or_throw_None st k He).
Qed.

Lemma known_same_devices m1 m2 dev :
  (∀ k, device <$> m1 !! k = device <$> m2 !! k) →
  known m1 dev = known m2 dev.
Proof.
  assert (∀ m1 m2 k, (∀ k, device <$> m1 !! k = device <$> m2 !! k) →
    first_match m1 dev k → first_match m2 dev k) as Hfm.
  { clear. intros m1 m2 k Heq (e & He & Hd & Hmin).
    pose proof (Heq k) as Hk. rewrite He in Hk. simpl in Hk.
    destruct (m2 !! k) as [e2|] eqn:He2; [|done]. injection Hk as Hk.
    exists e2. split_and!; [done|congruence|].
    intros k' e' He' Hd'. pose proof (Heq k') as Hk'. rewrite He' in Hk'.
    destruct (m1 !! k') as [e1|] eqn:He1; [|done]. injection Hk' as Hk'.
    apply (Hmin k' e1); congruence. }
  intros Heq. destruct (known m1 dev) as [k|] eqn:H1.
  - symmetry. apply known_Some. apply (Hfm m1 m2); [done|]. by apply known_Some.
  - destruct (known m2 dev) as [k|] eqn:H2; [|done].
    apply known_Some in H2. apply (Hfm m2 m1) in H2; [|done].
    apply known_Some in H2. congruence.
Qed.

(** *** Claim and release as updates of one entry *)

Lemma set_claimed_same e : set_claimed (claimed e) e = e.
Proof. by destruct e. Qed.

Lemma with_devices_same st : with_devices (m_connected_devices st) st = st.
Proof. by destruct st. Qed.

Lemma with_devices_insert_same st k e :
  m_connected_devices st !! k = Some e →
  with_devices (<[k := e]> (m_connected_devices st)) st = st.
Proof. intros He. rewrite insert_id by done. apply with_devices_same. Qed.

Lemma try_claim_device_claimed st k e :
  m_connected_devices st !! k = Some e → claimed e = true →
  try_claim_device k st = (inr false, st).
Proof.
  intros He Hc. rewrite (try_claim_device_Some st k e He), Hc. simpl.
  f_equal. rewrite <- Hc, set_claimed_same. by apply with_devices_insert_same.
Qed.

Lemma release_device_None st k :
  m_connected_devices st !! k = None →
  release_device k st = (inl (unknown_device k), st).
Proof.
  intros He. unfold release_device, mbind, M_bind.
  by rewrite (find_or_throw_None st k He).
Qed.

Lemma handles_distinct_set_claimed st k e b :
  handles_distinct st → m_connected_devices st !! k = Some e →
  handles_distinct
    (with_devices (<[k := set_claimed b e]> (m_connected_devices st)) st).
Proof.
  intros Hd He k1 k2 e1 e2. simpl. rewrite !lookup_insert.
  intros H1 H2 Hdev. apply (Hd k1 k2
    (if decide (k = k1) then e else e1) (if decide (k = k2) then e else e2));
    repeat case_decide; simplify_eq; done.
Qed.

(** *** One operation after another *)

Lemma run_op_wf st op : registry_wf st → registry_wf (run_op st op).
Proof.
  intros [Hi Hf Hd He]. destruct op as [bus|k|k]; simpl.
  - pose proof (refresh_device_list_eq bus st Hi) as Heq.
    split.
    + by rewrite Heq.
    + by apply ids_fresh_refresh.
    + by apply handles_distinct_refresh.
    + rewrite Heq. simpl. intros k e Hk.
      eapply lookup_weaken in Hk; [|apply remove_gone_subseteq].
      destruct (scan_bus_inv bus st Hf) as [I1 _ I3 _ _ _ _ _].
      destruct (decide (k < m_curr_id st)) as [Hlt|Hge].
      * rewrite I1 in Hk by done. by apply He.
      * destruct (I3 k e) as (_ & Hnew & _ & Hs & _); [lia|done|].
        rewrite Hnew. by split_and!.
  - destruct (m_connected_devices st !! k) as [e|] eqn:Hk.
    + rewrite (try_claim_device_Some st k e Hk). cbn [snd].
      split; [done|by eapply ids_fresh_with_devices|
              by apply handles_distinct_set_claimed|].
      simpl. intros k' e'. rewrite lookup_insert. case_decide.
      * intros [= <-]. subst. by apply (He k' e).
      * apply He.
    + by rewrite (try_claim_device_None st k Hk).
  - destruct (m_connected_devices st !! k) as [e|] eqn:Hk.
    + rewrite (release_device_Some st k e Hk). cbn [snd].
      split; [done|by eapply ids_fresh_with_devices|
              by apply handles_distinct_set_claimed|].
      simpl. intros k' e'. rewrite lookup_insert. case_decide.
      * intros [= <-]. subst. by apply (He k' e).
      * apply He.
    + by rewrite (release_device_None st k Hk).
Qed.

Lemma initial_wf : registry_wf initial.
Proof.
  split; [done|apply ids_fresh_initial|apply handles_distinct_initial|].
  intros k e Hk. simpl in Hk. by rewrite lookup_empty in Hk.
Qed.

Lemma run_op_keeps_claimed st op k e :
  ids_fresh st → m_connected_devices st !! k = Some e → claimed e = true →
  op ≠ OpRelease k →
  ids_fresh (run_op st op) ∧ m_connected_devices (run_op st op) !! k = Some e.
Proof.
  intros Hf He Hc Hop. destruct op as [bus|k'|k']; simpl.
  - split; [by apply ids_fresh_refresh|by apply claimed_entry_stays].
  - destruct (m_connected_devices st !! k') as [e'|] eqn:Hk'.
    + rewrite (try_claim_device_Some st k' e' Hk'). cbn [snd].
      split; [by eapply ids_fresh_with_devices|]. simpl.
      rewrite lookup_insert. case_decide; [|done]. subst.
      assert (e' = e) as -> by congruence.
      by rewrite <- Hc, set_claimed_same.
    + by rewrite (try_claim_device_None st k' Hk').
  - assert (k' ≠ k) by congruence.
    destruct (m_connected_devices st !! k') as [e'|] eqn:Hk'.
    + rewrite (release_device_Some st k' e' Hk'). cbn [snd].
      split; [by eapply ids_fresh_with_devices|]. simpl.
      by rewrite lookup_insert_ne.
    + by rewrite (release_device_None st k' Hk').
Qed.

(** *** What a pass leaves *)

Lemma st_one_fresh : ids_fresh Examples.st_one.
Proof.
  intros k [e He]. simpl in He.
  apply lookup_singleton_Some in He as [<- _]. simpl. lia.
Defined.

Lemma st_one_claimed_fresh : ids_fresh Examples.st_one_claimed.
Proof.
  intros k [e He]. simpl in He.
  apply lookup_singleton_Some in He as [<- _]. simpl. lia.
Defined.

Lemma new_device_entry bus st dev :
  ids_fresh st → m_libusb_init st = true →
  dev ∈ device_list bus → supported_on bus dev →
  known (m_connected_devices st) dev = None →
  ∃ k, m_connected_devices st !! k = None ∧
       m_connected_devices (refresh_device_list bus st) !! k =
         Some (new_connected_device bus k dev).
Proof.
  intros Hf Hi Hin Hs Hk0. rewrite refresh_device_list_eq by done. simpl.
  destruct (scan_bus_inv bus st Hf) as [_ _ I3 _ I5 _ _ I8].
  destruct (I8 dev Hin Hs) as (k & Hk & Hst).
  destruct (known_Some_lookup _ _ _ Hk) as (e & He & Hd).
  assert (¬ k < m_curr_id st) as Hge.
  { intros Hlt. apply I5 in Hk; [|done]. congruence. }
  exists k. split.
  { destruct (m_connected_devices st !! k) eqn:Hm; [|done].
    destruct Hge. eauto. }
  destruct (I3 k e) as (_ & Hnew & _); [lia|done|].
  rewrite remove_gone_lookup, He, Hnew, Hd.
  by destruct (device_status (scan_bus bus st) !! k) as [[]|].
Qed.

Lemma scan_no_supported bus (s0 : pass_state) l :
  (∀ dev, dev ∈ l → ¬ supported_on bus dev) →
  foldl (scan_device bus) s0 l = s0.
Proof.
  induction l as [|dev l IH] using rev_ind; intros Hall; [done|].
  rewrite foldl_snoc, IH.
  - unfold scan_device. destruct (is_supported _ _) eqn:Hs; [|done].
    destruct (Hall dev); [apply elem_of_app; right; by left|done].
  - intros d Hd. apply Hall, elem_of_app. by left.
Qed.

End DeviceManagerOpsFacts.

(** ** Further properties of the device manager *)

Module DeviceManagerExtra.
Import DeviceManager DeviceManagerOps DeviceManagerFacts DeviceManagerOpsFacts
  Examples.

Implicit Types (m : gmap N connected_device) (k : N) (e : connected_device)
  (dev : libusb_device) (st : libusb_device_manager) (bus : usb_bus).

(** X1. [get_connected_devices] returns the ids of the registry in
    strictly ascending order, one per entry, and leaves the manager as it
    was; [is_connected] answers true exactly for the ids of that list. *)
Theorem get_connected_devices_lists_registry st :
  ∃ ids, get_connected_devices st = (inr ids, st) ∧
    StronglySorted N.lt ids ∧
    length ids = size (m_connected_devices st) ∧
    (∀ k, k ∈ ids ↔ is_Some (m_connected_devices st !! k)) ∧
    (∀ k, is_connected k st = (inr (bool_decide (k ∈ ids)), st)).
Proof.
  exists ((entries (m_connected_devices st)).*1).
  split_and!; [done|apply entries_keys_sorted| |apply elem_of_entries_keys|].
  - by rewrite length_fmap, entries_length.
  - intros k. unfold is_connected, mbind, M_bind, get_devices, mret, M_ret.
    do 2 f_equal. apply bool_decide_ext. by rewrite elem_of_entries_keys.
Qed.

(** X2. A supported device that the registry did not know is reported
    after the pass under an id that was not connected before: the id is in
    the list of connected devices, the accessors return the vendor id,
    product id and strings read from the bus and the device object built
    on its handle, and the device is unclaimed. *)
Theorem new_device_reported bus st dev :
  ids_fresh st → m_libusb_init st = true →
  dev ∈ device_list bus → supported_on bus dev →
  known (m_connected_devices st) dev = None →
  let st' := refresh_device_list bus st in
  ∃ k, is_connected k st = (inr false, st) ∧
    is_connected k st' = (inr true, st') ∧
    (∃ ids, get_connected_devices st' = (inr ids, st') ∧ k ∈ ids) ∧
    get_vendor_id k st' = (inr (idVendor (get_device_descriptor bus dev)), st') ∧
    get_product_id k st' = (inr (idProduct (get_device_descriptor bus dev)), st') ∧
    get_manufacturer_string k st' = (inr (usb_manufacturer_string bus dev), st') ∧
    get_product_string k st' = (inr (usb_product_string bus dev), st') ∧
    get_serial_number k st' = (inr (usb_serial_number bus dev), st') ∧
    get_linkmasta_device k st' = (inr (Linkmasta dev), st') ∧
    is_device_claimed k st' = (inr false, st').
Proof.
  intros Hf Hi Hin Hs Hk0 st'.
  destruct (new_device_entry bus st dev Hf Hi Hin Hs Hk0) as (k & Hnone & Hk).
  fold st' in Hk. exists k.
  unfold get_vendor_id, get_product_id, get_manufacturer_string,
    get_product_string, get_serial_number, get_linkmasta_device,
    is_device_claimed.
  rewrite !read_field, Hk. simpl.
  split_and!; try done.
  - unfold is_connected, mbind, M_bind, get_devices, mret, M_ret.
    by rewrite Hnone.
  - unfold is_connected, mbind, M_bind, get_devices, mret, M_ret.
    by rewrite Hk.
  - exists ((entries (m_connected_devices st')).*1). split; [done|].
    apply elem_of_entries_keys. by rewrite Hk.
Qed.

Lemma new_device_reported_witness :
  ids_fresh st_one ∧ m_libusb_init st_one = true ∧
  9 ∈ device_list bus_a ∧ supported_on bus_a 9 ∧
  known (m_connected_devices st_one) 9 = None ∧
  ∃ k, get_product_id k (refresh_device_list bus_a st_one) =
         (inr 0x4252, refresh_device_list bus_a st_one) ∧
       is_device_claimed k (refresh_device_list bus_a st_one) =
         (inr false, refresh_device_list bus_a st_one).
Proof.
  assert (9 ∈ device_list bus_a) as Hin by (right; right; left).
  assert (supported_on bus_a 9) as Hs by reflexivity.
  split; [exact st_one_fresh|]. split; [reflexivity|].
  split; [exact Hin|]. split; [exact Hs|]. split; [reflexivity|].
  destruct (new_device_reported bus_a st_one 9 st_one_fresh eq_refl
    Hin Hs eq_refl) as (k & _ & _ & _ & _ & Hp & _ & _ & _ & _ & Hc).
  exists k. split; [exact Hp|exact Hc].
Defined.

(** X3. Claiming an unclaimed device and releasing it again brings the
    manager back to exactly the state before the claim; in between the
    device reads as claimed. *)
Theorem claim_release_round_trip st k e :
  m_connected_devices st !! k = Some e → claimed e = false →
  let st1 := (try_claim_device k st).2 in
  try_claim_device k st = (inr true, st1) ∧
  is_device_claimed k st1 = (inr true, st1) ∧
  release_device k st1 = (inr (), st).
Proof.
  intros He Hc st1. unfold st1.
  rewrite (try_claim_device_Some st k e He), Hc. cbn [snd negb].
  set (st' := with_devices _ st).
  assert (m_connected_devices st' !! k = Some (set_claimed true e)) as He'.
  { unfold st'. simpl. by rewrite lookup_insert_eq. }
  split_and!; [done| |].
  - unfold is_device_claimed. by rewrite read_field, He'.
  - rewrite (release_device_Some st' k _ He'). f_equal.
    unfold st', with_devices. simpl. rewrite insert_insert_eq.
    replace (set_claimed false (set_claimed true e)) with e
      by (destruct e; simpl in *; by subst).
    rewrite insert_id by done. by destruct st.
Qed.

Lemma claim_release_round_trip_witness :
  m_connected_devices st_one !! 0 = Some dev7 ∧ claimed dev7 = false ∧
  release_device 0 (try_claim_device 0 st_one).2 = (inr (), st_one).
Proof.
  split; [reflexivity|]. split; [reflexivity|].
  apply (claim_release_round_trip st_one 0 dev7 eq_refl eq_refl).
Defined.

(** X4. [release_device] throws the unknown-device exception for an id
    that is not registered and then changes nothing.  On a registered id
    it clears the flag whatever it was: a second release changes nothing
    more, releasing an unclaimed device changes nothing at all, and the
    next [try_claim_device] succeeds. *)
Theorem release_device_clears_flag st k :
  (m_connected_devices st !! k = None →
     release_device k st = (inl (unknown_device k), st)) ∧
  (∀ e, m_connected_devices st !! k = Some e →
     let st1 := (release_device k st).2 in
     release_device k st = (inr (), st1) ∧
     m_connected_devices st1 = <[k := set_claimed false e]> (m_connected_devices st) ∧
     is_device_claimed k st1 = (inr false, st1) ∧
     release_device k st1 = (inr (), st1) ∧
     (claimed e = false → st1 = st) ∧
     (try_claim_device k st1).1 = inr true).
Proof.
  split; [apply release_device_None|].
  intros e He st1. unfold st1.
  rewrite (release_device_Some st k e He). cbn [snd].
  set (st' := with_devices _ st).
  assert (m_connected_devices st' !! k = Some (set_claimed false e)) as He'.
  { unfold st'. simpl. by rewrite lookup_insert_eq. }
  split_and!; [done|done| | | |].
  - unfold is_device_claimed. by rewrite read_field, He'.
  - rewrite (release_device_Some st' k _ He'). f_equal.
    change (set_claimed false (set_claimed false e)) with (set_claimed false e).
    by apply with_devices_insert_same.
  - intros Hc. unfold st'. rewrite <- Hc, set_claimed_same.
    by apply with_devices_insert_same.
  - by rewrite (try_claim_device_Some st' k _ He').
Qed.

Lemma release_device_clears_flag_witness :
  release_device 5 st_one =
    (inl (invalid_argument "Unknown connected device ID 5"), st_one) ∧
  (try_claim_device 0 (release_device 0 st_one_claimed).2).1 = inr true.
Proof.
  destruct (release_device_clears_flag st_one 5) as [H1 _].
  destruct (release_device_clears_flag st_one_claimed 0) as [_ H2].
  split; [by apply H1|].
  by apply (H2 (set_claimed true dev7)).
Defined.

(** X5. [try_claim_device] and [release_device] touch nothing but the
    claimed flag of the one entry: the list of connected ids, what every
    accessor other than the claim state returns for every id, the claim
    state of every other id, the id counter and the matching of native
    handles are the same before and after. *)
Theorem claim_release_frame st k (op : manager_op) :
  op = OpTryClaim k ∨ op = OpRelease k →
  let st' := run_op st op in
  (get_connected_devices st').1 = (get_connected_devices st).1 ∧
  (∀ k', (is_connected k' st').1 = (is_connected k' st).1 ∧
         (get_vendor_id k' st').1 = (get_vendor_id k' st).1 ∧
         (get_product_id k' st').1 = (get_product_id k' st).1 ∧
         (get_manufacturer_string k' st').1 = (get_manufacturer_string k' st).1 ∧
         (get_product_string k' st').1 = (get_product_string k' st).1 ∧
         (get_serial_number k' st').1 = (get_serial_number k' st).1 ∧
         (get_linkmasta_device k' st').1 = (get_linkmasta_device k' st).1 ∧
         (k' ≠ k → (is_device_claimed k' st').1 = (is_device_claimed k' st).1)) ∧
  m_curr_id st' = m_curr_id st ∧ m_libusb_init st' = m_libusb_init st ∧
  (∀ dev, known (m_connected_devices st') dev = known (m_connected_devices st) dev).
Proof.
  intros Hop st'.
  assert (st' = st ∨ ∃ e b, m_connected_devices st !! k = Some e ∧
    st' = with_devices (<[k := set_claimed b e]> (m_connected_devices st)) st)
    as [->|(e & b & He & Hst)].
  { unfold st'. destruct (m_connected_devices st !! k) as [e|] eqn:He.
    - right. exists e. destruct Hop as [-> | ->]; simpl.
      + exists true. by rewrite (try_claim_device_Some st k e He).
      + exists false. by rewrite (release_device_Some st k e He).
    - left. destruct Hop as [-> | ->]; simpl.
      + by rewrite (try_claim_device_None st k He).
      + by rewrite (release_device_None st k He). }
  { done. }
  assert (∀ k', is_Some (m_connected_devices st' !! k') ↔
                is_Some (m_connected_devices st !! k')) as Hdom.
  { intros k'. rewrite Hst. simpl. rewrite lookup_insert.
    case_decide; [subst; rewrite He; split; eauto|done]. }
  assert (∀ {A} (f : connected_device → A) k',
    (∀ e b, f (set_claimed b e) = f e) →
    ((e ← find_or_throw k'; mret (f e)) st').1 =
    ((e ← find_or_throw k'; mret (f e)) st).1) as Hacc.
  { intros A f k' Hf. rewrite !read_field. cbn [fst]. rewrite Hst. simpl.
    rewrite lookup_insert. case_decide; [|done].
    subst. by rewrite He, Hf. }
  split_and!.
  - unfold get_connected_devices, mbind, M_bind, get_devices, mret, M_ret.
    cbn [fst]. f_equal. by apply entries_keys_same_dom.
  - intros k'. split_and!; try by apply Hacc.
    + unfold is_connected, mbind, M_bind, get_devices, mret, M_ret.
      cbn [fst]. f_equal. by apply bool_decide_ext.
    + intros Hne. unfold is_device_claimed. rewrite !read_field. cbn [fst].
      rewrite Hst. simpl. by rewrite lookup_insert_ne.
  - by rewrite Hst.
  - by rewrite Hst.
  - intros dev. apply known_same_devices. intros k'. rewrite Hst. simpl.
    rewrite lookup_insert. case_decide; [|done]. subst. by rewrite He.
Qed.

Lemma claim_release_frame_witness :
  (get_connected_devices (run_op st_one (OpTryClaim 0))).1 = inr [0] ∧
  (get_vendor_id 0 (run_op st_one (OpTryClaim 0))).1 = inr 0x20A0.
Proof.
  destruct (claim_release_frame st_one 0 (OpTryClaim 0) (or_introl eq_refl))
    as (H1 & H2 & _).
  split; [by rewrite H1|]. destruct (H2 0) as (_ & -> & _). reflexivity.
Defined.

(** X6. After the constructor and any series of passes, claims and
    releases: libusb is initialised, every id in the registry is below the
    id counter, no two entries hold the same native handle, and every
    entry carries its own key as id, a supported (vendor id, product id)
    pair and the device object built on its handle. *)
Theorem reachable_registry_well_formed (ops : list manager_op) :
  let st := run_ops ops initial in
  m_libusb_init st = true ∧
  ids_fresh st ∧
  handles_distinct st ∧
  (∀ k e, m_connected_devices st !! k = Some e →
     id e = k ∧ (vendor_id e, product_id e) ∈ supported_devices ∧
     linkmasta e = Linkmasta (device e)).
Proof.
  assert (∀ st, registry_wf st → registry_wf (run_ops ops st)) as Hwf.
  { unfold run_ops. induction ops as [|op ops IH]; intros st Hst; [done|].
    simpl. by apply IH, run_op_wf. }
  destruct (Hwf initial initial_wf) as [Hi Hf Hd He].
  split_and!; [done..|]. intros k e Hk.
  destruct (He k e Hk) as (? & Hs & ?). split_and!; [done| |done].
  revert Hs. unfold is_supported, supported_devices.
  rewrite !orb_true_iff, !andb_true_iff, !N.eqb_eq, !elem_of_cons.
  intros [[[-> ->]|[-> ->]]|[-> ->]]; tauto.
Qed.

(** X7. After a pass, every unclaimed entry of the registry belongs to a
    device the bus showed during the pass, with a supported descriptor:
    only claimed entries can outlive their device. *)
Theorem unclaimed_entries_are_on_the_bus bus st k e :
  ids_fresh st → m_libusb_init st = true →
  m_connected_devices (refresh_device_list bus st) !! k = Some e →
  claimed e = false →
  device e ∈ device_list bus ∧ supported_on bus (device e).
Proof.
  intros Hf Hi. rewrite refresh_device_list_eq by done. simpl. intros He Hc.
  destruct (kept_unclaimed_seen bus st Hf k e He Hc) as (dev & Hin & Hs & Hk).
  destruct (known_Some_lookup _ _ _ Hk) as (e' & He' & <-).
  assert (e' = e) as -> by congruence. done.
Qed.

Lemma unclaimed_entries_are_on_the_bus_witness :
  ids_fresh st_one ∧ m_libusb_init st_one = true ∧
  m_connected_devices (refresh_device_list bus_a st_one) !! 0 = Some dev7 ∧
  claimed dev7 = false ∧
  device dev7 ∈ device_list bus_a ∧ supported_on bus_a (device dev7).
Proof.
  assert (m_connected_devices (refresh_device_list bus_a st_one) !! 0 =
          Some dev7) as He by (vm_compute; reflexivity).
  split; [exact st_one_fresh|]. split; [reflexivity|]. split; [exact He|].
  split; [reflexivity|].
  apply (unclaimed_entries_are_on_the_bus bus_a st_one 0 dev7 st_one_fresh
    eq_refl He eq_refl).
Defined.

(** X8. When the bus shows no supported device (an empty device list
    included), a pass leaves exactly the claimed entries, unchanged, and
    hands out no id. *)
Theorem pass_without_devices_keeps_claimed bus st :
  m_libusb_init st = true →
  (∀ dev, dev ∈ device_list bus → ¬ supported_on bus dev) →
  let st' := refresh_device_list bus st in
  (∀ k e, m_connected_devices st' !! k = Some e ↔
          m_connected_devices st !! k = Some e ∧ claimed e = true) ∧
  m_curr_id st' = m_curr_id st.
Proof.
  intros Hi Hnone st'. unfold st'. rewrite refresh_device_list_eq by done.
  unfold scan_bus. rewrite scan_no_supported by done. simpl.
  split; [|done]. intros k e.
  rewrite remove_gone_lookup. simpl. rewrite mark_not_found_lookup.
  destruct (m_connected_devices st !! k) as [e0|] eqn:He0; simpl.
  - destruct (claimed e0) eqn:Hc.
    + split; [by intros [= <-]|by intros [? _]].
    + split; [done|]. intros [[= <-] ?]. congruence.
  - split; [done|by intros [? _]].
Qed.

Lemma pass_without_devices_keeps_claimed_witness :
  m_libusb_init st_one = true ∧
  (∀ dev, dev ∈ device_list bus_empty → ¬ supported_on bus_empty dev) ∧
  m_connected_devices (refresh_device_list bus_empty st_one) !! 0 = None ∧
  m_connected_devices (refresh_device_list bus_empty st_one_claimed) !! 0 =
    Some (set_claimed true dev7).
Proof.
  assert (∀ dev, dev ∈ device_list bus_empty → ¬ supported_on bus_empty dev)
    as Hnone.
  { intros dev Hin. by apply elem_of_nil in Hin. }
  split; [reflexivity|]. split; [exact Hnone|].
  destruct (pass_without_devices_keeps_claimed bus_empty st_one eq_refl Hnone)
    as [H1 _].
  destruct (pass_without_devices_keeps_claimed bus_empty st_one_claimed
    eq_refl Hnone) as [H2 _].
  split.
  - destruct (m_connected_devices (refresh_device_list bus_empty st_one) !! 0)
      as [e|] eqn:He; [|done].
    apply H1 in He as [[= <-] Hc]. discriminate Hc.
  - by apply H2.
Defined.

(** X9. While a device is claimed and nobody releases it, no
    [try_claim_device] on its id succeeds, whatever passes, claims and
    releases of other ids happen in between, and its entry stays in the
    registry as it is. *)
Theorem claimed_device_stays_exclusive st k e (ops : list manager_op) :
  ids_fresh st → m_connected_devices st !! k = Some e → claimed e = true →
  OpRelease k ∉ ops →
  Forall (λ r, r = inr false) (claim_results k ops st) ∧
  m_connected_devices (run_ops ops st) !! k = Some e.
Proof.
  unfold run_ops. revert st.
  induction ops as [|op ops IH]; intros st Hf He Hc Hrel; [done|].
  assert (op ≠ OpRelease k) as Hop.
  { intros ->. apply Hrel. by left. }
  assert (OpRelease k ∉ ops) as Hrel'.
  { intros Hin. apply Hrel. by right. }
  destruct (run_op_keeps_claimed st op k e Hf He Hc Hop) as [Hf' He'].
  destruct (IH (run_op st op) Hf' He' Hc Hrel') as [IH1 IH2].
  split; [|done]. cbn [claim_results].
  destruct op as [bus|k'|k']; try done.
  case_decide as Hk; [|done]. subst k'.
  constructor; [|done].
  by rewrite (try_claim_device_claimed st k e He Hc).
Qed.

Lemma claimed_device_stays_exclusive_witness :
  ids_fresh st_one_claimed ∧
  m_connected_devices st_one_claimed !! 0 = Some (set_claimed true dev7) ∧
  claim_results 0
    [OpTryClaim 0; OpRefresh bus_empty; OpTryClaim 0; OpRefresh bus_a;
     OpRelease 1; OpTryClaim 0] st_one_claimed =
    [inr false; inr false; inr false].
Proof.
  split; [exact st_one_claimed_fresh|]. split; [reflexivity|].
  set (ops := [OpTryClaim 0; OpRefresh bus_empty; OpTryClaim 0;
               OpRefresh bus_a; OpRelease 1; OpTryClaim 0]).
  assert (OpRelease 0 ∉ ops) as Hrel.
  { unfold ops. intros H. repeat (apply elem_of_cons in H as [H|H]; [discriminate H|]).
    by apply elem_of_nil in H. }
  destruct (claimed_device_stays_exclusive st_one_claimed 0
    (set_claimed true dev7) ops st_one_claimed_fresh eq_refl eq_refl Hrel)
    as [Hall _].
  assert (length (claim_results 0 ops st_one_claimed) = 3%nat) as Hlen
    by (vm_compute; reflexivity).
  destruct (claim_results 0 ops st_one_claimed) as [|r1 [|r2 [|r3 [|r4 l]]]];
    try discriminate Hlen.
  apply Forall_cons in Hall as [-> Hall].
  apply Forall_cons in Hall as [-> Hall].
  apply Forall_cons in Hall as [-> _]. reflexivity.
Defined.

End DeviceManagerExtra.

(** ** The callers in the main window *)

Module MainWindowFacts.
Import DeviceManager DeviceManagerOps DeviceManagerFacts DeviceManagerOpsFacts
  MainWindow Examples.

Implicit Types (k : N) (e : connected_device) (st : libusb_device_manager).

Lemma claim_loop_free fuel st k e :
  m_connected_devices st !! k = Some e → claimed e = false →
  claim_loop (S fuel) k st = (Returned (), claimed_state st k e).
Proof.
  intros He Hc. cbn [claim_loop]. unfold mbind, Client_bind, call.
  by rewrite (try_claim_device_Some st k e He), Hc.
Qed.

Lemma claim_loop_taken fuel st k e :
  m_connected_devices st !! k = Some e → claimed e = true →
  claim_loop fuel k st = (Spinning, st).
Proof.
  intros He Hc. induction fuel as [|fuel IH]; [done|].
  cbn [claim_loop]. unfold mbind, Client_bind, call.
  by rewrite (try_claim_device_claimed st k e He Hc).
Qed.

Lemma claim_loop_unknown fuel st k :
  m_connected_devices st !! k = None →
  claim_loop (S fuel) k st = (Threw (manager_exception (unknown_device k)), st).
Proof.
  intros He. cbn [claim_loop]. unfold mbind, Client_bind, call.
  by rewrite (try_claim_device_None st k He).
Qed.

Lemma claimed_state_lookup st k e :
  m_connected_devices (claimed_state st k e) !! k = Some (set_claimed true e).
Proof. unfold claimed_state. simpl. by rewrite lookup_insert_eq. Qed.

Lemma release_claimed_state st k e :
  m_connected_devices st !! k = Some e → claimed e = false →
  release_device k (claimed_state st k e) = (inr (), st).
Proof.
  intros He Hc.
  rewrite (release_device_Some _ k _ (claimed_state_lookup st k e)). f_equal.
  unfold claimed_state, with_devices. simpl. rewrite insert_insert_eq.
  replace (set_claimed false (set_claimed true e)) with e
    by (destruct e; simpl in *; by subst).
  rewrite insert_id by done. by destruct st.
Qed.

Lemma cartridge_for_supported e :
  is_supported (vendor_id e) (product_id e) = true →
  cartridge_for (product_id e) (linkmasta e) = Some (cartridge_of e).
Proof.
  unfold is_supported, cartridge_for, cartridge_of.
  rewrite !orb_true_iff, !andb_true_iff, !N.eqb_eq.
  intros [[[_ ->]|[_ ->]]|[_ ->]]; reflexivity.
Qed.

(** *** The other threads *)

Lemma tracks_present k e st :
  ids_fresh st → m_connected_devices st !! k = Some e → tracks k e st.
Proof.
  intros Hf He. split_and!; [done|apply Hf; by rewrite He|].
  right. exists (claimed e). by rewrite set_claimed_same.
Qed.

Lemma tracks_lookup k e st e' :
  tracks k e st → m_connected_devices st !! k = Some e' →
  ∃ b, e' = set_claimed b e.
Proof.
  intros (_ & _ & [Hn|[b Hb]]) He; [congruence|].
  exists b. congruence.
Qed.

Lemma tracks_insert k e st e' b :
  tracks k e st → m_connected_devices st !! k = Some e' →
  tracks k e (with_devices (<[k := set_claimed b e']> (m_connected_devices st)) st).
Proof.
  intros Ht He. destruct (tracks_lookup k e st e' Ht He) as [b' ->].
  destruct Ht as (Hf & Hk & _). split_and!.
  - by apply (ids_fresh_with_devices st k (set_claimed b' e)).
  - done.
  - right. exists b. simpl. by rewrite lookup_insert_eq.
Qed.

Lemma tracks_insert_ne k e st k' e0 e' :
  k' ≠ k → tracks k e st → m_connected_devices st !! k' = Some e0 →
  tracks k e (with_devices (<[k' := e']> (m_connected_devices st)) st).
Proof.
  intros Hne (Hf & Hk & He) He0. split_and!.
  - by apply (ids_fresh_with_devices st k' e0).
  - done.
  - simpl. by rewrite lookup_insert_ne.
Qed.

Lemma run_op_tracks k e st op : tracks k e st → tracks k e (run_op st op).
Proof.
  intros Ht. destruct op as [bus|id'|id']; cbn [run_op].
  - destruct Ht as (Hf & Hk & He).
    destruct (m_libusb_init st) eqn:Hi;
      [|unfold refresh_device_list; by rewrite Hi].
    pose proof (scan_bus_inv bus st Hf) as Hinv. split_and!.
    + by apply ids_fresh_refresh.
    + rewrite refresh_device_list_eq by done. cbn.
      pose proof (inv_curr _ _ _ _ _ Hinv). lia.
    + destruct He as [Hn|[b Hb]].
      * left. rewrite refresh_device_list_eq by done. cbn.
        eapply lookup_weaken_None; [|apply remove_gone_subseteq].
        by rewrite (inv_old _ _ _ _ _ Hinv k Hk).
      * destruct (refresh_old_entry bus st k _ Hf Hi Hb) as (b' & _ & Hl).
        rewrite Hl. destruct b'; [right; by exists b|]. cbn.
        destruct b; [right; by exists true|by left].
  - destruct (m_connected_devices st !! id') as [e0|] eqn:Hid.
    + rewrite (try_claim_device_Some st id' e0 Hid). cbn [snd].
      destruct (decide (id' = k)) as [->|Hne].
      * by apply tracks_insert.
      * by apply (tracks_insert_ne k e st id' e0).
    + by rewrite (try_claim_device_None st id' Hid).
  - destruct (m_connected_devices st !! id') as [e0|] eqn:Hid.
    + rewrite (release_device_Some st id' e0 Hid). cbn [snd].
      destruct (decide (id' = k)) as [->|Hne].
      * by apply tracks_insert.
      * by apply (tracks_insert_ne k e st id' e0).
    + by rewrite (release_device_None st id' Hid).
Qed.

Lemma run_ops_tracks k e ops st : tracks k e st → tracks k e (run_ops ops st).
Proof.
  revert st. induction ops as [|op ops IH]; intros st Ht; [done|].
  apply (IH (run_op st op)). by apply run_op_tracks.
Qed.

Lemma run_ops_keeps_claimed ops st k e :
  ids_fresh st → m_connected_devices st !! k = Some e → claimed e = true →
  OpRelease k ∉ ops →
  ids_fresh (run_ops ops st) ∧
  m_connected_devices (run_ops ops st) !! k = Some e.
Proof.
  revert st. induction ops as [|op ops IH]; intros st Hf He Hc Hnot; [done|].
  destruct (run_op_keeps_claimed st op k e Hf He Hc) as [Hf' He'].
  { intros ->. apply Hnot. by left. }
  apply (IH (run_op st op) Hf' He' Hc). intros Hin. apply Hnot. by right.
Qed.

Lemma claimed_state_tracks k e st e2 :
  tracks k e st → m_connected_devices st !! k = Some e2 →
  ids_fresh (claimed_state st k e2) ∧
  m_connected_devices (claimed_state st k e2) !! k = Some (set_claimed true e).
Proof.
  intros Ht He2. destruct (tracks_lookup k e st e2 Ht He2) as [b ->].
  split; [|exact (claimed_state_lookup st k (set_claimed b e))].
  destruct Ht as (Hf & _). by apply (ids_fresh_with_devices st k (set_claimed b e)).
Qed.

(** *** The claim loop among the other threads *)

Lemma claim_loop_among_cons ops gaps k st :
  claim_loop_among (ops :: gaps) k st =
    match try_claim_device k (run_ops ops st) with
    | (inl ex, st') => (Threw (manager_exception ex), st')
    | (inr true, st') => (Returned (), st')
    | (inr false, st') => claim_loop_among gaps k st'
    end.
Proof.
  cbn [claim_loop_among]. unfold mbind, Client_bind, meanwhile, call.
  by destruct (try_claim_device k (run_ops ops st)) as [[ex|[|]] st'].
Qed.

Lemma claim_loop_among_quiet fuel k st :
  claim_loop_among (replicate fuel []) k st = claim_loop fuel k st.
Proof.
  revert st. induction fuel as [|fuel IH]; intros st; [done|].
  cbn [replicate]. rewrite claim_loop_among_cons. cbn [claim_loop].
  unfold mbind, Client_bind, call. cbn [run_ops foldl].
  destruct (try_claim_device k st) as [[ex|[|]] st']; first [done|apply IH].
Qed.

Lemma claim_loop_among_gone ops gaps k st :
  m_connected_devices (run_ops ops st) !! k = None →
  claim_loop_among (ops :: gaps) k st =
    (Threw (manager_exception (unknown_device k)), run_ops ops st).
Proof.
  intros Hn. rewrite claim_loop_among_cons.
  by rewrite (try_claim_device_None _ k Hn).
Qed.

Lemma claim_loop_among_free ops gaps k st e2 :
  m_connected_devices (run_ops ops st) !! k = Some e2 → claimed e2 = false →
  claim_loop_among (ops :: gaps) k st =
    (Returned (), claimed_state (run_ops ops st) k e2).
Proof.
  intros He Hc. rewrite claim_loop_among_cons.
  by rewrite (try_claim_device_Some _ k e2 He), Hc.
Qed.

Lemma claim_loop_among_outcome gaps k e st :
  tracks k e st →
  tracks k e (claim_loop_among gaps k st).2 ∧
  match (claim_loop_among gaps k st).1 with
  | Returned _ =>
      m_connected_devices (claim_loop_among gaps k st).2 !! k =
        Some (set_claimed true e)
  | Threw t =>
      t = manager_exception (unknown_device k) ∧
      m_connected_devices (claim_loop_among gaps k st).2 !! k = None
  | Undefined => False
  | Spinning => True
  end.
Proof.
  revert st. induction gaps as [|ops gaps IH]; intros st Ht; [done|].
  rewrite claim_loop_among_cons.
  pose proof (run_ops_tracks k e ops st Ht) as Ht1.
  destruct (m_connected_devices (run_ops ops st) !! k) as [e1|] eqn:He1.
  - destruct (tracks_lookup k e _ e1 Ht1 He1) as [b ->].
    rewrite (try_claim_device_Some _ k _ He1).
    pose proof (tracks_insert k e _ _ true Ht1 He1) as Ht2.
    destruct b; cbn [negb claimed set_claimed fst snd].
    + by apply IH.
    + split; [done|]. cbn. by rewrite lookup_insert_eq.
  - by rewrite (try_claim_device_None _ k He1).
Qed.

(** *** [buildCartridgeForDevice] and the action slots *)

Lemma build_null null sch (id : Z) st e :
  m_connected_devices st !! to_unsigned id = Some e →
  null (linkmasta e) = true →
  buildCartridgeForDevice null sch id st = (Returned None, st).
Proof.
  intros He Hn. unfold buildCartridgeForDevice.
  unfold mbind at 1. unfold Client_bind at 1. unfold call at 1.
  unfold get_linkmasta_device. by rewrite read_field, He, Hn.
Qed.

Lemma build_unknown null sch (id : Z) st :
  m_connected_devices st !! to_unsigned id = None →
  buildCartridgeForDevice null sch id st =
    (Threw (manager_exception (unknown_device (to_unsigned id))), st).
Proof.
  intros He. unfold buildCartridgeForDevice.
  unfold mbind at 1. unfold Client_bind at 1. unfold call at 1.
  unfold get_linkmasta_device. by rewrite read_field, He.
Qed.

Lemma build_unfold null sch (id : Z) st e :
  m_connected_devices st !! to_unsigned id = Some e →
  null (linkmasta e) = false →
  buildCartridgeForDevice null sch id st =
    let k := to_unsigned id in
    let s1 := run_ops (before_product_id sch) st in
    match m_connected_devices s1 !! k with
    | None => (Threw (manager_exception (unknown_device k)), s1)
    | Some e1 =>
        match claim_loop_among (before_claim sch) k s1 with
        | (Returned _, s2) =>
            match cartridge_for (product_id e1) (linkmasta e) with
            | None => (Undefined, s2)
            | Some c =>
                let s3 := run_ops (while_claimed sch) s2 in
                if init_returns sch then
                  match release_device k s3 with
                  | (inl ex, s4) => (Threw (manager_exception ex), s4)
                  | (inr _, s4) => (Returned (Some c), s4)
                  end
                else (Threw external_exception, s3)
            end
        | (Threw t, s2) => (Threw t, s2)
        | (Undefined, s2) => (Undefined, s2)
        | (Spinning, s2) => (Spinning, s2)
        end
    end.
Proof.
  intros He Hn. unfold buildCartridgeForDevice.
  unfold mbind at 1. unfold Client_bind at 1. unfold call at 1.
  unfold get_linkmasta_device. rewrite read_field, He, Hn.
  unfold mbind at 1. unfold Client_bind at 1. unfold meanwhile at 1.
  unfold mbind at 1. unfold Client_bind at 1. unfold call at 1.
  unfold get_product_id. rewrite read_field. cbn zeta.
  destruct (m_connected_devices (run_ops (before_product_id sch) st)
              !! to_unsigned id) as [e1|]; [|done].
  unfold mbind at 1. unfold Client_bind at 1.
  destruct (claim_loop_among (before_claim sch) (to_unsigned id)
              (run_ops (before_product_id sch) st)) as [[[]|t| |] s2];
    try done.
  destruct (cartridge_for (product_id e1) (linkmasta e)) as [c|]; [|done].
  unfold mbind, Client_bind, meanwhile, external, call, mret, Client_ret.
  destruct (init_returns sch); [|done].
  by destruct (release_device (to_unsigned id) (run_ops (while_claimed sch) s2))
    as [[ex|[]] s4].
Qed.

Lemma release_outcome k e st :
  tracks k e st →
  tracks k e (release_device k st).2 ∧
  match (release_device k st).1 with
  | inr _ =>
      m_connected_devices (release_device k st).2 !! k =
        Some (set_claimed false e)
  | inl ex =>
      ex = unknown_device k ∧
      m_connected_devices (release_device k st).2 !! k = None
  end.
Proof.
  intros Ht. destruct (m_connected_devices st !! k) as [e3|] eqn:He3.
  - rewrite (release_device_Some st k e3 He3). cbn [fst snd].
    split; [by apply tracks_insert|].
    destruct (tracks_lookup k e st e3 Ht He3) as [b ->].
    cbn. by rewrite lookup_insert_eq.
  - by rewrite (release_device_None st k He3).
Qed.

Lemma build_outcome null sch (id : Z) st e :
  ids_fresh st → m_connected_devices st !! to_unsigned id = Some e →
  is_supported (vendor_id e) (product_id e) = true →
  null (linkmasta e) = false →
  tracks (to_unsigned id) e (buildCartridgeForDevice null sch id st).2 ∧
  match (buildCartridgeForDevice null sch id st).1 with
  | Returned c =>
      c = Some (cartridge_of e) ∧
      m_connected_devices (buildCartridgeForDevice null sch id st).2
        !! to_unsigned id = Some (set_claimed false e)
  | Threw (manager_exception ex) =>
      ex = unknown_device (to_unsigned id) ∧
      m_connected_devices (buildCartridgeForDevice null sch id st).2
        !! to_unsigned id = None
  | Threw external_exception => init_returns sch = false
  | Undefined => False
  | Spinning => True
  end.
Proof.
  intros Hf He Hs Hn. rewrite (build_unfold null sch id st e He Hn). cbn zeta.
  pose proof (run_ops_tracks _ e (before_product_id sch) st
    (tracks_present _ e st Hf He)) as Ht1.
  destruct (m_connected_devices (run_ops (before_product_id sch) st)
              !! to_unsigned id) as [e1|] eqn:He1; [|done].
  destruct (tracks_lookup _ e _ e1 Ht1 He1) as [b ->].
  change (product_id (set_claimed b e)) with (product_id e).
  rewrite (cartridge_for_supported e Hs).
  pose proof (claim_loop_among_outcome (before_claim sch) _ e _ Ht1) as Hloop.
  destruct (claim_loop_among (before_claim sch) (to_unsigned id)
              (run_ops (before_product_id sch) st)) as [[[]|t| |] s2];
    cbn [fst snd] in *; try done.
  - destruct Hloop as [Ht2 He2].
    pose proof (run_ops_tracks _ e (while_claimed sch) s2 Ht2) as Ht3.
    destruct (init_returns sch) eqn:Hinit; [|done].
    pose proof (release_outcome _ e _ Ht3) as Hrel.
    destruct (release_device (to_unsigned id) (run_ops (while_claimed sch) s2))
      as [[ex|[]] s4]; cbn [fst snd] in *; by destruct Hrel.
  - destruct Hloop as [Ht2 [-> Hn2]]. done.
Qed.

Lemma held_released ops k e st e2 :
  tracks k e st → m_connected_devices st !! k = Some e2 →
  OpRelease k ∉ ops →
  m_connected_devices (run_ops ops (claimed_state st k e2)) !! k =
    Some (set_claimed true e) ∧
  release_device k (run_ops ops (claimed_state st k e2)) =
    (inr (), released_state (run_ops ops (claimed_state st k e2)) k e).
Proof.
  intros Ht He2 Hnot.
  destruct (claimed_state_tracks k e st e2 Ht He2) as [Hf Hc].
  destruct (run_ops_keeps_claimed ops _ k _ Hf Hc eq_refl Hnot) as [_ He3].
  split; [done|]. by rewrite (release_device_Some _ k _ He3).
Qed.

Lemma released_claimed_state st k e :
  m_connected_devices st !! k = Some e → claimed e = false →
  released_state (claimed_state st k e) k e = st.
Proof.
  intros He Hc. unfold released_state, claimed_state, with_devices. simpl.
  rewrite insert_insert_eq.
  replace (set_claimed false e) with e by (destruct e; simpl in *; by subst).
  rewrite insert_id by done. by destruct st.
Qed.

Lemma trigger_unfold null sch (device_index : Z) st :
  device_index ≠ (-1)%Z →
  triggerAction null sch device_index st =
    let k := to_unsigned device_index in
    match buildCartridgeForDevice null (build sch) device_index st with
    | (Returned (Some _), sb) =>
        match claim_loop_among (before_action_claim sch) k sb with
        | (Returned _, s2) =>
            let s3 := run_ops (while_task_runs sch) s2 in
            match task sch with
            | task_returns =>
                match release_device k s3 with
                | (inl ex, s4) => (Threw (manager_exception ex), s4)
                | (inr _, s4) => (Returned (action_done false), s4)
                end
            | task_runtime_error =>
                match release_device k s3 with
                | (inl ex, s4) => (Threw (manager_exception ex), s4)
                | (inr _, s4) => (Returned (action_done true), s4)
                end
            | task_other_exception => (Threw external_exception, s3)
            end
        | (Threw t, s2) => (Threw t, s2)
        | (Undefined, s2) => (Undefined, s2)
        | (Spinning, s2) => (Spinning, s2)
        end
    | (Returned None, sb) => (Returned asked_to_select, sb)
    | (Threw t, sb) => (Threw t, sb)
    | (Undefined, sb) => (Undefined, sb)
    | (Spinning, sb) => (Spinning, sb)
    end.
Proof.
  intros Hidx. unfold triggerAction. rewrite decide_True by done.
  unfold mbind at 1. unfold Client_bind at 1. cbn zeta.
  destruct (buildCartridgeForDevice null (build sch) device_index st)
    as [[[c|]|t| |] sb]; try done.
  unfold mbind at 1. unfold Client_bind at 1.
  destruct (claim_loop_among (before_action_claim sch)
              (to_unsigned device_index) sb) as [[[]|t| |] s2]; try done.
  unfold mbind, Client_bind, meanwhile, call, mret, Client_ret.
  destruct (task sch); [| |done];
    by destruct (release_device (to_unsigned device_index)
                   (run_ops (while_task_runs sch) s2)) as [[ex|[]] s4].
Qed.

Lemma trigger_outcome null sch (device_index : Z) st e :
  device_index ≠ (-1)%Z →
  ids_fresh st → m_connected_devices st !! to_unsigned device_index = Some e →
  is_supported (vendor_id e) (product_id e) = true →
  null (linkmasta e) = false →
  tracks (to_unsigned device_index) e
    (triggerAction null sch device_index st).2 ∧
  match (triggerAction null sch device_index st).1 with
  | Returned a =>
      match task sch with
      | task_returns => a = action_done false
      | task_runtime_error => a = action_done true
      | task_other_exception => False
      end ∧
      m_connected_devices (triggerAction null sch device_index st).2
        !! to_unsigned device_index = Some (set_claimed false e)
  | Threw (manager_exception ex) =>
      ex = unknown_device (to_unsigned device_index) ∧
      m_connected_devices (triggerAction null sch device_index st).2
        !! to_unsigned device_index = None
  | Threw external_exception =>
      init_returns (build sch) = false ∨ task sch = task_other_exception
  | Undefined => False
  | Spinning => True
  end.
Proof.
  intros Hidx Hf He Hs Hn. rewrite (trigger_unfold null sch _ st Hidx).
  cbn zeta.
  pose proof (build_outcome null (build sch) _ st e Hf He Hs Hn) as Hb.
  destruct (buildCartridgeForDevice null (build sch) device_index st)
    as [[c|[ex|]| |] sb]; cbn [fst snd] in *; try done.
  - destruct Hb as (Htb & -> & Heb).
    pose proof (claim_loop_among_outcome (before_action_claim sch) _ e _ Htb)
      as Hloop.
    destruct (claim_loop_among (before_action_claim sch)
                (to_unsigned device_index) sb) as [[[]|t| |] s2];
      cbn [fst snd] in *; try done.
    + destruct Hloop as [Ht2 He2].
      pose proof (run_ops_tracks _ e (while_task_runs sch) s2 Ht2) as Ht3.
      pose proof (release_outcome _ e _ Ht3) as Hrel.
      destruct (task sch); cbn [fst snd]; [| |by split; [|right]];
        destruct (release_device (to_unsigned device_index)
                    (run_ops (while_task_runs sch) s2)) as [[ex|[]] s4];
        cbn [fst snd] in *; by destruct Hrel.
    + destruct Hloop as [Ht2 [-> Hn2]]. done.
  - destruct Hb as [Htb Hinit]. split; [done|by left].
Qed.

Lemma claim_loop_among_taken ops ops' gaps k st e2 :
  m_connected_devices (run_ops ops st) !! k = Some e2 → claimed e2 = true →
  claim_loop_among (ops :: ops' :: gaps) k st =
    claim_loop_among ((ops ++ ops') :: gaps) k st.
Proof.
  intros He Hc. rewrite (claim_loop_among_cons ops).
  rewrite (try_claim_device_claimed _ k e2 He Hc).
  rewrite !claim_loop_among_cons. unfold run_ops. by rewrite foldl_app.
Qed.

Lemma claim_loop_among_last ops k st e2 :
  m_connected_devices (run_ops ops st) !! k = Some e2 → claimed e2 = true →
  claim_loop_among [ops] k st = (Spinning, run_ops ops st).
Proof.
  intros He Hc. rewrite claim_loop_among_cons.
  by rewrite (try_claim_device_claimed _ k e2 He Hc).
Qed.

Lemma build_gone_before_claim null sch (id : Z) st e ops gaps :
  m_connected_devices st !! to_unsigned id = Some e →
  null (linkmasta e) = false →
  before_claim sch = ops :: gaps →
  is_Some (m_connected_devices (run_ops (before_product_id sch) st)
             !! to_unsigned id) →
  m_connected_devices (run_ops ops (run_ops (before_product_id sch) st))
    !! to_unsigned id = None →
  buildCartridgeForDevice null sch id st =
    (Threw (manager_exception (unknown_device (to_unsigned id))),
     run_ops ops (run_ops (before_product_id sch) st)).
Proof.
  intros He Hn Hbc [e1 He1] Hgone.
  rewrite (build_unfold null sch id st e He Hn). cbn zeta.
  by rewrite He1, Hbc, (claim_loop_among_gone ops gaps _ _ Hgone).
Qed.

Lemma build_free null sch (id : Z) st e ops gaps e2 :
  ids_fresh st → m_connected_devices st !! to_unsigned id = Some e →
  is_supported (vendor_id e) (product_id e) = true →
  null (linkmasta e) = false →
  before_claim sch = ops :: gaps →
  is_Some (m_connected_devices (run_ops (before_product_id sch) st)
             !! to_unsigned id) →
  m_connected_devices (run_ops ops (run_ops (before_product_id sch) st))
    !! to_unsigned id = Some e2 →
  claimed e2 = false → OpRelease (to_unsigned id) ∉ while_claimed sch →
  m_connected_devices
    (run_ops (while_claimed sch)
       (claimed_state (run_ops ops (run_ops (before_product_id sch) st))
          (to_unsigned id) e2)) !! to_unsigned id = Some (set_claimed true e) ∧
  buildCartridgeForDevice null sch id st =
    if init_returns sch
    then (Returned (Some (cartridge_of e)),
          released_state
            (run_ops (while_claimed sch)
               (claimed_state (run_ops ops (run_ops (before_product_id sch) st))
                  (to_unsigned id) e2)) (to_unsigned id) e)
    else (Threw external_exception,
          run_ops (while_claimed sch)
            (claimed_state (run_ops ops (run_ops (before_product_id sch) st))
               (to_unsigned id) e2)).
Proof.
  intros Hf He Hs Hn Hbc [e1 He1] He2 Hc Hnot.
  pose proof (run_ops_tracks _ e (before_product_id sch) st
    (tracks_present _ e st Hf He)) as Ht1.
  pose proof (run_ops_tracks _ e ops _ Ht1) as Ht2.
  destruct (held_released (while_claimed sch) _ e _ e2 Ht2 He2 Hnot)
    as [He3 Hrel].
  split; [done|].
  rewrite (build_unfold null sch id st e He Hn). cbn zeta.
  rewrite He1, Hbc, (claim_loop_among_free ops gaps _ _ e2 He2 Hc).
  destruct (tracks_lookup _ e _ e1 Ht1 He1) as [b ->].
  change (product_id (set_claimed b e)) with (product_id e).
  rewrite (cartridge_for_supported e Hs).
  destruct (init_returns sch); [|done]. by rewrite Hrel.
Qed.

Lemma build_quiet null fuel (returns : bool) (id : Z) st e :
  ids_fresh st → m_connected_devices st !! to_unsigned id = Some e →
  is_supported (vendor_id e) (product_id e) = true →
  null (linkmasta e) = false → claimed e = false →
  buildCartridgeForDevice null (quiet_build (S fuel) returns) id st =
    if returns then (Returned (Some (cartridge_of e)), st)
    else (Threw external_exception, claimed_state st (to_unsigned id) e).
Proof.
  intros Hf He Hs Hn Hc.
  destruct (build_free null (quiet_build (S fuel) returns) id st e []
    (replicate fuel []) e Hf He Hs Hn eq_refl (mk_is_Some _ _ He) He Hc
    (not_elem_of_nil _)) as [_ Hr].
  rewrite Hr. cbn [quiet_build init_returns while_claimed before_product_id
    run_ops foldl].
  destruct returns; [|done]. by rewrite (released_claimed_state st _ e He Hc).
Qed.

Lemma action_gone null sch (device_index : Z) st c sb ops gaps :
  device_index ≠ (-1)%Z →
  buildCartridgeForDevice null (build sch) device_index st =
    (Returned (Some c), sb) →
  before_action_claim sch = ops :: gaps →
  m_connected_devices (run_ops ops sb) !! to_unsigned device_index = None →
  triggerAction null sch device_index st =
    (Threw (manager_exception (unknown_device (to_unsigned device_index))),
     run_ops ops sb).
Proof.
  intros Hidx Hb Hbc Hgone. rewrite (trigger_unfold null sch _ st Hidx).
  cbn zeta. by rewrite Hb, Hbc, (claim_loop_among_gone ops gaps _ _ Hgone).
Qed.

Lemma action_free null sch (device_index : Z) st e c sb ops gaps e2 :
  device_index ≠ (-1)%Z →
  buildCartridgeForDevice null (build sch) device_index st =
    (Returned (Some c), sb) →
  tracks (to_unsigned device_index) e sb →
  before_action_claim sch = ops :: gaps →
  m_connected_devices (run_ops ops sb) !! to_unsigned device_index = Some e2 →
  claimed e2 = false →
  OpRelease (to_unsigned device_index) ∉ while_task_runs sch →
  m_connected_devices
    (run_ops (while_task_runs sch)
       (claimed_state (run_ops ops sb) (to_unsigned device_index) e2))
    !! to_unsigned device_index = Some (set_claimed true e) ∧
  triggerAction null sch device_index st =
    match task sch with
    | task_returns =>
        (Returned (action_done false),
         released_state
           (run_ops (while_task_runs sch)
              (claimed_state (run_ops ops sb) (to_unsigned device_index) e2))
           (to_unsigned device_index) e)
    | task_runtime_error =>
        (Returned (action_done true),
         released_state
           (run_ops (while_task_runs sch)
              (claimed_state (run_ops ops sb) (to_unsigned device_index) e2))
           (to_unsigned device_index) e)
    | task_other_exception =>
        (Threw external_exception,
         run_ops (while_task_runs sch)
           (claimed_state (run_ops ops sb) (to_unsigned device_index) e2))
    end.
Proof.
  intros Hidx Hb Htb Hbc He2 Hc Hnot.
  pose proof (run_ops_tracks _ e ops _ Htb) as Ht2.
  destruct (held_released (while_task_runs sch) _ e _ e2 Ht2 He2 Hnot)
    as [He3 Hrel].
  split; [done|].
  rewrite (trigger_unfold null sch _ st Hidx). cbn zeta.
  rewrite Hb, Hbc, (claim_loop_among_free ops gaps _ _ e2 He2 Hc).
  destruct (task sch); [| |done]; by rewrite Hrel.
Qed.

Lemma trigger_quiet null fuel (how : task_result) (device_index : Z) st e :
  device_index ≠ (-1)%Z →
  ids_fresh st → m_connected_devices st !! to_unsigned device_index = Some e →
  is_supported (vendor_id e) (product_id e) = true →
  null (linkmasta e) = false → claimed e = false →
  triggerAction null (quiet_action (S fuel) true how) device_index st =
    match how with
    | task_returns => (Returned (action_done false), st)
    | task_runtime_error => (Returned (action_done true), st)
    | task_other_exception =>
        (Threw external_exception,
         claimed_state st (to_unsigned device_index) e)
    end.
Proof.
  intros Hidx Hf He Hs Hn Hc.
  pose proof (build_quiet null fuel true device_index st e Hf He Hs Hn Hc)
    as Hb.
  destruct (action_free null (quiet_action (S fuel) true how) device_index st
    e (cartridge_of e) st [] (replicate fuel []) e Hidx Hb
    (tracks_present _ e st Hf He) eq_refl He Hc (not_elem_of_nil _))
    as [_ Hr].
  rewrite Hr. cbn [quiet_action task while_task_runs run_ops foldl].
  destruct how; [| |done]; by rewrite (released_claimed_state st _ e He Hc).
Qed.

Lemma build_taken null sch (id : Z) st e ops ops' gaps e2 :
  m_connected_devices st !! to_unsigned id = Some e →
  null (linkmasta e) = false →
  before_claim sch = ops :: ops' :: gaps →
  m_connected_devices (run_ops ops (run_ops (before_product_id sch) st))
    !! to_unsigned id = Some e2 →
  claimed e2 = true →
  buildCartridgeForDevice null sch id st =
    buildCartridgeForDevice null
      (with_before_claim ((ops ++ ops') :: gaps) sch) id st.
Proof.
  intros He Hn Hbc He2 Hc.
  rewrite !(build_unfold null _ id st e He Hn). cbn zeta.
  cbn [with_before_claim before_product_id before_claim while_claimed
    init_returns].
  by rewrite Hbc, (claim_loop_among_taken ops ops' gaps _ _ e2 He2 Hc).
Qed.

Lemma build_spinning null sch (id : Z) st e ops e2 :
  m_connected_devices st !! to_unsigned id = Some e →
  null (linkmasta e) = false →
  before_claim sch = [ops] →
  is_Some (m_connected_devices (run_ops (before_product_id sch) st)
             !! to_unsigned id) →
  m_connected_devices (run_ops ops (run_ops (before_product_id sch) st))
    !! to_unsigned id = Some e2 →
  claimed e2 = true →
  buildCartridgeForDevice null sch id st =
    (Spinning, run_ops ops (run_ops (before_product_id sch) st)).
Proof.
  intros He Hn Hbc [e1 He1] He2 Hc.
  rewrite (build_unfold null sch id st e He Hn). cbn zeta.
  by rewrite He1, Hbc, (claim_loop_among_last ops _ _ e2 He2 Hc).
Qed.

(** *** The list of device ids of the window *)

Lemma forget_removed_filter (removed : gset N) kept rest :
  forget_removed removed kept rest =
    kept ++ filter (λ x, x ∉ removed) rest.
Proof.
  revert kept. induction rest as [|x rest IH]; intros kept; simpl.
  - by rewrite app_nil_r.
  - rewrite filter_cons. case_decide as Hx.
    + rewrite decide_False by (intros H; by apply H). apply IH.
    + rewrite decide_True by done. rewrite IH. by rewrite <- app_assoc.
Qed.

Lemma filter_same_on (P Q : N → Prop) `{∀ x, Decision (P x)}
    `{∀ x, Decision (Q x)} (l : list N) :
  (∀ x, x ∈ l → (P x ↔ Q x)) → filter P l = filter Q l.
Proof.
  induction l as [|x l IH]; intros Heq; [done|].
  rewrite !filter_cons. rewrite IH by (intros y Hy; apply Heq; by right).
  destruct (Heq x) as [H1 H2]; [by left|].
  repeat case_decide; try done; tauto.
Qed.

Lemma remember_new_cons null before_lookup k new_devices ids st :
  remember_new null before_lookup (k :: new_devices) ids st =
    match m_connected_devices (run_ops (before_lookup k) st) !! k with
    | None =>
        (Threw (manager_exception (unknown_device k)), ids,
         run_ops (before_lookup k) st)
    | Some e =>
        if null (linkmasta e)
        then (Undefined, ids, run_ops (before_lookup k) st)
        else remember_new null before_lookup new_devices (ids ++ [k])
               (run_ops (before_lookup k) st)
    end.
Proof.
  cbn [remember_new]. unfold get_linkmasta_device. rewrite read_field.
  by destruct (m_connected_devices (run_ops (before_lookup k) st) !! k).
Qed.

Lemma remember_new_outcome null before_lookup new_devices ids st :
  ∃ added rest, new_devices = added ++ rest ∧
    (remember_new null before_lookup new_devices ids st).1.2 = ids ++ added ∧
    match (remember_new null before_lookup new_devices ids st).1.1 with
    | Returned _ => rest = []
    | Threw t =>
        ∃ k rest', rest = k :: rest' ∧
          t = manager_exception (unknown_device k) ∧
          m_connected_devices
            (remember_new null before_lookup new_devices ids st).2 !! k = None
    | Undefined =>
        ∃ k rest' e, rest = k :: rest' ∧
          m_connected_devices
            (remember_new null before_lookup new_devices ids st).2 !! k
            = Some e ∧
          null (linkmasta e) = true
    | Spinning => False
    end.
Proof.
  revert ids st. induction new_devices as [|k l IH]; intros ids st.
  - exists [], []. cbn. by rewrite app_nil_r.
  - rewrite remember_new_cons.
    destruct (m_connected_devices (run_ops (before_lookup k) st) !! k)
      as [e|] eqn:He.
    + destruct (null (linkmasta e)) eqn:Hn.
      * exists [], (k :: l). cbn. rewrite app_nil_r.
        split_and!; [done..|]. by exists k, l, e.
      * destruct (IH (ids ++ [k]) (run_ops (before_lookup k) st))
          as (added & rest & -> & Hids & Hout).
        exists (k :: added), rest. split_and!; [done| |done].
        by rewrite Hids, <- app_assoc.
    + exists [], (k :: l). cbn. rewrite app_nil_r.
      split_and!; [done..|]. by exists k, l.
Qed.

Lemma remember_new_quiet null before_lookup new_devices ids st :
  (∀ k, k ∈ new_devices → before_lookup k = []) →
  (∀ k, k ∈ new_devices →
     ∃ e, m_connected_devices st !! k = Some e ∧ null (linkmasta e) = false) →
  remember_new null before_lookup new_devices ids st =
    (Returned (), ids ++ new_devices, st).
Proof.
  revert ids. induction new_devices as [|k l IH]; intros ids Hq Hall.
  - cbn. by rewrite app_nil_r.
  - rewrite remember_new_cons. rewrite (Hq k) by (by left). cbn [run_ops foldl].
    destruct (Hall k) as (e & -> & ->); [by left|].
    rewrite IH.
    + by rewrite <- app_assoc.
    + intros k' Hk'. apply Hq. by right.
    + intros k' Hk'. apply Hall. by right.
Qed.

Lemma refresh_list_unfold null before_lookup ids st :
  refreshDeviceList_timeout null false before_lookup ids st =
    remember_new null before_lookup
      (merge_sort N.le
         (elements (list_to_set (entries (m_connected_devices st)).*1
                      ∖ list_to_set ids : gset N)))
      (filter (λ k, is_Some (m_connected_devices st !! k)) ids) st.
Proof.
  unfold refreshDeviceList_timeout, try_get_connected_devices.
  unfold mbind, M_bind, get_devices, mret, M_ret. cbn beta iota zeta.
  rewrite forget_removed_filter. cbn [app]. f_equal.
  apply filter_same_on. intros k Hk.
  rewrite elem_of_difference, !elem_of_list_to_set, elem_of_entries_keys.
  split; [|tauto]. intros Hn.
  destruct (decide (is_Some (m_connected_devices st !! k))); tauto.
Qed.

Lemma sorted_le_NoDup_lt (l : list N) :
  StronglySorted N.le l → NoDup l → StronglySorted N.lt l.
Proof.
  induction 1 as [|x l Hs IH Hall]; [constructor|].
  intros [Hnin Hnd]%NoDup_cons. constructor; [by apply IH|].
  rewrite Forall_forall in Hall. apply Forall_forall. intros y Hy.
  specialize (Hall y Hy). assert (x ≠ y) by congruence. lia.
Qed.

End MainWindowFacts.

(** ** Properties of the callers *)

Module MainWindowExtra.
Import DeviceManager DeviceManagerOps DeviceManagerFacts DeviceManagerOpsFacts
  MainWindow MainWindowFacts Examples.

Implicit Types (k : N) (e : connected_device) (st : libusb_device_manager).

(** X10. The claim loop [while (!try_claim_device(id));] returns after
    its first call, with the device claimed, when the device is free; it
    leaves by the unknown-device exception when the id is not registered;
    and on a claimed device it never returns on its own, however long it
    runs, and leaves the manager untouched. *)
Theorem claim_loop_outcomes fuel st k :
  (∀ e, m_connected_devices st !! k = Some e → claimed e = false →
     claim_loop (S fuel) k st = (Returned (), claimed_state st k e)) ∧
  (∀ e, m_connected_devices st !! k = Some e → claimed e = true →
     claim_loop fuel k st = (Spinning, st)) ∧
  (m_connected_devices st !! k = None →
     claim_loop (S fuel) k st =
       (Threw (manager_exception (unknown_device k)), st)).
Proof.
  split_and!.
  - intros e. apply claim_loop_free.
  - intros e. apply claim_loop_taken.
  - apply claim_loop_unknown.
Qed.

Lemma claim_loop_outcomes_witness :
  claim_loop 1 0 st_one = (Returned (), st_one_claimed) ∧
  claim_loop 50 0 st_one_claimed = (Spinning, st_one_claimed).
Proof.
  destruct (claim_loop_outcomes 0 st_one 0) as (H1 & _).
  destruct (claim_loop_outcomes 50 st_one_claimed 0) as (_ & H2 & _).
  split.
  - rewrite (H1 dev7 eq_refl eq_refl). reflexivity.
  - apply (H2 (set_claimed true dev7) eq_refl eq_refl).
Defined.






(** The window knows the device 0 and the manager has got the device 1
    since; the refresh thread sees the bus empty before the window asks
    for the object of the new device. *)
Example window_list_unplugged :
  refreshDeviceList_timeout (λ _, false) false (λ _, [OpRefresh bus_empty])
      [0] st_two =
    (Threw (manager_exception (unknown_device 1)), [0],
     refresh_device_list bus_empty st_two) ∧
  refreshDeviceList_timeout (λ _, false) false (λ _, []) [0] st_two =
    (Returned (), [0; 1], st_two).
Proof. split; vm_compute; reflexivity. Qed.

End MainWindowExtra.

(** ** Properties of the flash task *)

Module NgpCartridgeFlashTaskExtra.
Import NgpCartridgeFlashTask.

Lemma iff_by_decide (P Q : Prop) `{!Decision P, !Decision Q} :
  bool_decide P = bool_decide Q → (P ↔ Q).
Proof.
  intros Heq. rewrite <- (bool_decide_spec P), <- (bool_decide_spec Q).
  by rewrite Heq.
Qed.

(** X14. [run_task] allocates the input stream exactly when the dialog
    gave a file name and starts the restore exactly when the stream
    opened.  Unless the restore throws something that is no
    [std::exception], the stream is closed if it was open and deleted once,
    the close right before the delete; an exception of the restore leaves
    the function after that clean-up, and the "aborted" message is shown
    exactly when the task was cancelled.  When the restore throws something
    else, the stream is neither closed nor deleted. *)
Theorem run_task_cleans_up (filename : option string) (is_open : bool)
    (restore : restore_result) (is_task_cancelled : bool) :
  let trace := (run_task filename is_open restore is_task_cancelled).1 in
  let thrown := (run_task filename is_open restore is_task_cancelled).2 in
  (new_ifstream ∈ trace ↔ is_Some filename) ∧
  (restore_cartridge_game_data ∈ trace ↔ is_Some filename ∧ is_open = true) ∧
  (thrown = true ↔
     is_Some filename ∧ is_open = true ∧ restore ≠ restore_returns) ∧
  (delete_stream ∈ trace ↔
     is_Some filename ∧ (is_open = true → restore ≠ restore_throws_other)) ∧
  (close_stream ∈ trace ↔
     is_Some filename ∧ is_open = true ∧ restore ≠ restore_throws_other) ∧
  (close_stream ∈ trace →
     ∃ before after, trace = before ++ [close_stream; delete_stream] ++ after) ∧
  (length (filter (λ ev, ev = delete_stream) trace) ≤ 1)%nat ∧
  (message_box "Operation aborted: cartridge may be in an unplayable state."
     ∈ trace ↔
     is_Some filename ∧ is_open = true ∧ restore ≠ restore_throws_other ∧
     is_task_cancelled = true).
Proof.
  destruct filename as [name|], is_open, restore, is_task_cancelled;
    cbn zeta; split_and!;
    try (match goal with
         | |- ?P ↔ ?Q => apply (iff_by_decide P Q)
         end; vm_compute; reflexivity);
    try (vm_compute; lia);
    try (match goal with
         | |- ?P → _ =>
             intros Hin; exfalso; revert Hin;
             apply (bool_decide_eq_false_1 P); vm_compute; reflexivity
         end);
    intros _.
  - by exists [new_ifstream; progress_label "Writing data to cartridge";
      restore_cartridge_game_data;
      message_box "Operation aborted: cartridge may be in an unplayable state."], [].
  - by exists [new_ifstream; progress_label "Writing data to cartridge";
      restore_cartridge_game_data], [].
  - by exists [new_ifstream; progress_label "Writing data to cartridge";
      restore_cartridge_game_data],
      [message_box "Operation aborted: cartridge may be in an unplayable state."].
  - by exists [new_ifstream; progress_label "Writing data to cartridge";
      restore_cartridge_game_data], [].
Qed.

End NgpCartridgeFlashTaskExtra.
